(** * E-Invoice API: the schema validation engine and the XML validation route

    A shallow embedding of [validation/jsonSchemaValidator.js]
    ([INVOICE_SCHEMA], [validateSchema]) and of the [POST /validate] handler
    of [routes/xmlInvoice.js], followed by the properties the specification
    states about them.

    JavaScript values are embedded as the inductive [value]; plain objects
    are finite maps from property names to values (own data properties only:
    inherited members of [Object.prototype], [length] and index properties
    of arrays and strings are outside the model).  What the JavaScript
    runtime supplies ([parseFloat], [isFinite], [RegExp], number formatting)
    is collected in the class [JsHost]; every theorem holds for every host. *)

From Stdlib Require Import Ascii DecimalString.
From stdpp Require Import base option list strings gmap.

Local Set Warnings "-register-all".
Local Open Scope string_scope.
Local Open Scope list_scope.

(** ** The runtime *)

Class JsHost := {
  (** IEEE doubles, as the engine has them *)
  number : Type;
  (** [SameValueZero] on numbers, the comparison of [Array.prototype.includes] *)
  number_sameValueZero : number → number → bool;
  (** [String(n)] *)
  number_toString : number → string;
  (** [Boolean(n)] : false for [0], [-0] and [NaN] *)
  number_truthy : number → bool;
  (** [isNaN(parseFloat(s))] *)
  parseFloat_isNaN : string → bool;
  (** [isFinite(s)] for a string [s] (which coerces [s] with [Number]) *)
  isFinite_string : string → bool;
  (** compiled regular expressions *)
  RegExp : Type;
  (** [new RegExp(p)]; [None] when the pattern is rejected ([SyntaxError]) *)
  RegExp_new : string → option RegExp;
  (** [regex.test(s)] *)
  RegExp_test : RegExp → string → bool;
  (** the empty pattern compiles and matches every string *)
  RegExp_empty : ∀ s, ∃ regex, RegExp_new "" = Some regex ∧ RegExp_test regex s = true;
}.

(** Exceptions the modelled code can raise. *)
Inductive js_error :=
  | TypeError_in (key : string)        (* ['key' in null] *)
  | TypeError_read (key : string)      (* [null[key]], [undefined[key]] *)
  | SyntaxError_RegExp (pattern : string)
  | Error_xml (message : string).      (* raised by the XML parser *)

(** The outcome of a call: a returned value or a thrown exception. *)
Inductive completion (A : Type) :=
  | Return (a : A)
  | Throw (e : js_error).
Arguments Return {A} a.
Arguments Throw {A} e.

Global Instance completion_ret : MRet completion := λ A a, Return a.
Global Instance completion_bind : MBind completion := λ A B f c,
  match c with
  | Return a => f a
  | Throw e => Throw e
  end.

(** Runs the computations left to right and concatenates what they return;
    the first exception aborts the whole loop (a [forEach] whose callback
    pushes onto one shared array). *)
Fixpoint collect {A} (cs : list (completion (list A))) : completion (list A) :=
  match cs with
  | [] => Return []
  | c :: cs' => xs ← c; ys ← collect cs'; mret (xs ++ ys)
  end.

Section Validator.
Context `{host : JsHost}.

(** ** Values *)

(** The values the validator is given: what [JSON.parse] and the XML parser
    build.  An object is a plain object, given by its own properties. *)
Inductive value :=
  | VUndefined
  | VNull
  | VBool (b : bool)
  | VNum (n : number)
  | VStr (s : string)
  | VArr (elems : list value)
  | VObj (fields : gmap string value).

(** [Array.isArray(data) ? 'array' : typeof data] *)
Definition typeOf (data : value) : string :=
  match data with
  | VArr _ => "array"
  | VUndefined => "undefined"
  | VNull => "object"
  | VBool _ => "boolean"
  | VNum _ => "number"
  | VStr _ => "string"
  | VObj _ => "object"
  end.

(** [typeof data] *)
Definition typeof (data : value) : string :=
  match data with
  | VArr _ => "object"
  | _ => typeOf data
  end.

Definition nat_toString (n : nat) : string :=
  NilEmpty.string_of_uint (Nat.to_uint n).

(** [xs.join(sep)] on strings *)
Fixpoint join (sep : string) (xs : list string) : string :=
  match xs with
  | [] => ""
  | [x] => x
  | x :: xs' => x +:+ sep +:+ join sep xs'
  end.

(** [String(v)], the conversion a template literal applies.  Inside
    [Array.prototype.join] the elements [null] and [undefined] print as the
    empty string. *)
Fixpoint toString (v : value) : string :=
  match v with
  | VUndefined => "undefined"
  | VNull => "null"
  | VBool true => "true"
  | VBool false => "false"
  | VNum n => number_toString n
  | VStr s => s
  | VArr elems =>
      join "," (map (λ x, match x with
                          | VUndefined | VNull => ""
                          | _ => toString x
                          end) elems)
  | VObj _ => "[object Object]"
  end.

Definition join_values (sep : string) (vs : list value) : string :=
  join sep (map (λ x, match x with
                      | VUndefined | VNull => ""
                      | _ => toString x
                      end) vs).

(** [SameValueZero]: objects and arrays compare by identity, and a value
    under validation is never the very object a schema lists. *)
Definition sameValueZero (x y : value) : bool :=
  match x, y with
  | VUndefined, VUndefined => true
  | VNull, VNull => true
  | VBool a, VBool b => bool_decide (a = b)
  | VNum a, VNum b => number_sameValueZero a b
  | VStr a, VStr b => bool_decide (a = b)
  | _, _ => false
  end.

(** [xs.includes(data)] *)
Definition includes (xs : list value) (data : value) : bool :=
  existsb (λ x, sameValueZero x data) xs.

(** [Boolean(v)] *)
Definition truthy (v : value) : bool :=
  match v with
  | VUndefined | VNull => false
  | VBool b => b
  | VNum n => number_truthy n
  | VStr s => negb (bool_decide (s = ""))
  | VArr _ | VObj _ => true
  end.

(** [key in data], for a key that [Object.prototype] does not define (see
    [Object_prototype_names]): such a key is in a plain object exactly when
    it is an own property.  The right operand must be an object: [null] and
    the primitives raise.  An array has none of the names a schema requires
    (the validator asks objects only). *)
Definition js_in (key : string) (data : value) : completion bool :=
  match data with
  | VObj fields => Return (bool_decide (is_Some (fields !! key)))
  | VArr _ => Return false
  | _ => Throw (TypeError_in key)
  end.

(** [data[key]], for the keys the modelled code reads: the property names of
    a schema and [Invoice], [ItemList], [Item], [_text].  For a key that
    [Object.prototype] does not define the read gives the own property or
    [undefined]; the statements that depend on an absent property assume
    such keys.  Arrays, strings, numbers and booleans have no such member;
    [null] and [undefined] raise. *)
Definition js_get (data : value) (key : string) : completion value :=
  match data with
  | VObj fields => Return (default VUndefined (fields !! key))
  | VUndefined | VNull => Throw (TypeError_read key)
  | _ => Return VUndefined
  end.

Definition is_undefined (v : value) : bool :=
  match v with VUndefined => true | _ => false end.

(** ** Schemas *)

(** A schema node is a plain object with optional members.  [properties]
    lists its entries in the order [Object.keys] enumerates them. *)
Inductive schema := Schema {
  s_type : option string;
  s_enum : option (list value);
  s_pattern : option string;
  s_required : option (list string);
  s_properties : option (list (string * schema));
  s_minItems : option nat;
  s_maxItems : option nat;
  s_items : option schema;
}.

(** Truthiness of the optional members: a missing member is [undefined],
    the empty string and [0] are falsy, arrays and objects are truthy. *)
Definition str_truthy (o : option string) : bool :=
  match o with Some s => negb (bool_decide (s = "")) | None => false end.
Definition nat_truthy (o : option nat) : bool :=
  match o with Some n => negb (bool_decide (n = 0)) | None => false end.

(** [schema.type === t] *)
Definition type_is (o : option string) (t : string) : bool :=
  bool_decide (o = Some t).

(** [schema.type && type !== schema.type] *)
Definition type_differs (o : option string) (type : string) : bool :=
  str_truthy o && negb (type_is o type).

(** The test of the first [if]: a string that looks numeric under a
    [number] schema. *)
Definition numeric_string (data : value) : bool :=
  match data with
  | VStr s => negb (parseFloat_isNaN s) && isFinite_string s
  | _ => false
  end.

Definition lenient (ty : option string) (data : value) : bool :=
  type_is ty "number" && bool_decide (typeOf data = "string") && numeric_string data.

(** The condition under which the type check returns its error: the first
    [if] does not hold, [schema.type && type !== schema.type] does, and the
    exception for numbers does not. *)
Definition type_mismatch (ty : option string) (data : value) : bool :=
  negb (lenient ty data) && type_differs ty (typeOf data)
    && negb (type_is ty "number" && bool_decide (typeof data = "number")).

Definition type_error (path expected found : string) : string :=
  path +:+ ": Expected type " +:+ expected +:+ " but found " +:+ found.

Definition enum_error (path : string) (data : value) (enum : list value) : string :=
  path +:+ ": Value '" +:+ toString data +:+ "' is not in allowed enum: "
       +:+ join_values ", " enum.

Definition pattern_error (path : string) (data : value) (pattern : string) : string :=
  path +:+ ": Value '" +:+ toString data +:+ "' does not match pattern " +:+ pattern.

Definition required_error (path reqField : string) : string :=
  path +:+ ": Missing required field '" +:+ reqField +:+ "'".

Definition minItems_error (path : string) (len min : nat) : string :=
  path +:+ ": Array has " +:+ nat_toString len +:+ " items, minimum is " +:+ nat_toString min.

Definition maxItems_error (path : string) (len max : nat) : string :=
  path +:+ ": Array has " +:+ nat_toString len +:+ " items, maximum is " +:+ nat_toString max.

(** The block run on a value that is neither an object nor an array. *)
Definition check_enum (path : string) (data : value) (enum : option (list value))
  : list string :=
  match enum with
  | Some vs => if includes vs data then [] else [enum_error path data vs]
  | None => []
  end.

Definition check_pattern (path : string) (data : value) (pattern : option string)
  : completion (list string) :=
  match pattern, data with
  | Some p, VStr s =>
      if str_truthy pattern then
        match RegExp_new p with
        | None => Throw (SyntaxError_RegExp p)
        | Some regex =>
            Return (if RegExp_test regex s then [] else [pattern_error path data p])
        end
      else Return []
  | _, _ => Return []
  end.

(** The [forEach] over [schema.required]. *)
Definition check_required (path : string) (data : value) (required : option (list string))
  : completion (list string) :=
  match required with
  | Some names =>
      collect (map (λ reqField,
                      present ← js_in reqField data;
                      mret (if present : bool then [] else [required_error path reqField]))
                   names)
  | None => Return []
  end.

Definition check_minItems (path : string) (len : nat) (min : option nat) : list string :=
  if nat_truthy min && bool_decide (len < default 0 min)%nat
  then [minItems_error path len (default 0 min)] else [].

Definition check_maxItems (path : string) (len : nat) (max : option nat) : list string :=
  if nat_truthy max && bool_decide (default 0 max < len)%nat
  then [maxItems_error path len (default 0 max)] else [].

(** [data.forEach((item, index) => ...)] *)
Definition forEach_indexed {A} (f : value → nat → completion (list A)) (elems : list value)
  : completion (list A) :=
  collect (imap (λ index item, f item index) elems).

Definition elems_of (data : value) : list value :=
  match data with VArr elems => elems | _ => [] end.

(** ** [validateSchema] *)

Fixpoint validateSchema (data : value) (sch : schema) (path : string) {struct sch}
  : completion (list string) :=
  match sch with
  | Schema ty enum pattern required properties minItems maxItems items =>
    let type := typeOf data in
    (* 1. Check Type *)
    if type_mismatch ty data
    then Return [type_error path (default "" ty) type]
    else
    (* not an object or an array: check the value *)
    if negb (bool_decide (type = "object")) && negb (bool_decide (type = "array"))
    then
      pattern_errors ← check_pattern path data pattern;
      mret (check_enum path data enum ++ pattern_errors)
    else
      (* 2. Check Object Properties *)
      object_errors ←
        (match properties with
         | Some props =>
             if bool_decide (type = "object") then
               required_errors ← check_required path data required;
               prop_errors ←
                 collect (map (λ entry,
                    match entry with
                    | (propKey, sub) =>
                        v ← js_get data propKey;
                        if is_undefined v then Return []
                        else validateSchema v sub (path +:+ "." +:+ propKey)
                    end) props);
               mret (required_errors ++ prop_errors)
             else Return []
         | None => Return []
         end);
      (* 3. Check Array Items *)
      array_errors ←
        (if bool_decide (type = "array") then
           let len := length (elems_of data) in
           item_errors ←
             (match items with
              | Some it =>
                  forEach_indexed
                    (λ item index,
                       validateSchema item it
                         (path +:+ "[" +:+ nat_toString index +:+ "]"))
                    (elems_of data)
              | None => Return []
              end);
           mret (check_minItems path len minItems ++ check_maxItems path len maxItems
                   ++ item_errors)
         else Return []);
      mret (object_errors ++ array_errors)
  end.

(** The two callbacks of the recursion, as the loops apply them. *)
Definition validate_property (data : value) (path : string) (entry : string * schema)
  : completion (list string) :=
  match entry with
  | (propKey, sub) =>
      v ← js_get data propKey;
      if is_undefined v then Return []
      else validateSchema v sub (path +:+ "." +:+ propKey)
  end.

Definition validate_item (it : schema) (path : string) (item : value) (index : nat)
  : completion (list string) :=
  validateSchema item it (path +:+ "[" +:+ nat_toString index +:+ "]").

(** The call with the default [path = 'root']. *)
Definition validate (data : value) (sch : schema) : completion (list string) :=
  validateSchema data sch "root".

(** ** [INVOICE_SCHEMA] *)

Definition string_node : schema :=
  Schema (Some "string") None None None None None None None.
Definition number_node : schema :=
  Schema (Some "number") None None None None None None None.
Definition enum_node (allowed : list string) : schema :=
  Schema (Some "string") (Some (map VStr allowed)) None None None None None None.
Definition pattern_node (pattern : string) : schema :=
  Schema (Some "string") None (Some pattern) None None None None None.
Definition object_node (required : list string) (properties : list (string * schema))
  : schema :=
  Schema (Some "object") None None (Some required) (Some properties) None None None.
Definition array_node (minItems maxItems : nat) (items : schema) : schema :=
  Schema (Some "array") None None None None (Some minItems) (Some maxItems) (Some items).

Definition Item_schema : schema :=
  object_node
    ["SlNo"; "PrdDesc"; "HsnCd"; "Qty"; "Unit"; "UnitPrice"; "TotAmt"; "AssAmt";
     "GstRt"; "IgstAmt"; "CgstAmt"; "SgstAmt"; "TotItemVal"]
    [("SlNo", string_node); ("PrdDesc", string_node); ("HsnCd", string_node);
     ("Qty", number_node); ("Unit", string_node); ("UnitPrice", number_node);
     ("TotAmt", number_node); ("AssAmt", number_node); ("GstRt", number_node);
     ("IgstAmt", number_node); ("CgstAmt", number_node); ("SgstAmt", number_node);
     ("TotItemVal", number_node)].

Definition ItemList_schema : schema := array_node 1 1000 Item_schema.

Definition INVOICE_SCHEMA : schema :=
  object_node
    ["Version"; "TranDtls"; "DocDtls"; "SellerDtls"; "BuyerDtls"; "ItemList"; "ValDtls"]
    [("Version", enum_node ["1.1"]);
     ("TranDtls",
       object_node ["SupTyp"; "RegRev"]
         [("SupTyp", enum_node ["B2B"; "SEZWP"; "SEZWOP"; "EXPWP"; "EXPWOP"; "DEXP"]);
          ("RegRev", enum_node ["Y"; "N"])]);
     ("DocDtls",
       object_node ["Typ"; "No"; "Dt"]
         [("Typ", enum_node ["INV"; "CRN"; "DBN"]);
          ("No", string_node);
          ("Dt", string_node)]);
     ("SellerDtls",
       object_node ["Gstin"; "LglNm"; "Stcd"]
         [("Gstin", pattern_node "^[0-9]{2}[A-Z]{5}[0-9]{4}[A-Z]{1}[1-9A-Z]{1}Z[0-9A-Z]{1}$");
          ("LglNm", string_node);
          ("Stcd", string_node)]);
     ("BuyerDtls",
       object_node ["Gstin"; "LglNm"; "Stcd"; "Pos"]
         [("Gstin", string_node);
          ("LglNm", string_node);
          ("Stcd", string_node);
          ("Pos", string_node)]);
     ("ItemList", ItemList_schema);
     ("ValDtls",
       object_node ["AssVal"; "CgstVal"; "SgstVal"; "IgstVal"; "TotInvVal"]
         [("AssVal", number_node);
          ("CgstVal", number_node);
          ("SgstVal", number_node);
          ("IgstVal", number_node);
          ("TotInvVal", number_node)])].

(** ** The route [POST /api/e-invoice-xml/validate] *)

Record response := {
  status : nat;
  contentType : string;
  body : string;
}.

(** One line of a template literal: a line break, the indentation, the text. *)
Definition line (indent : nat) (text : string) : string :=
  String (Ascii.ascii_of_nat 10)
    (String.string_of_list_ascii (replicate indent (Ascii.ascii_of_nat 32)))
    +:+ text.

Definition body_empty_payload : string :=
  line 16 "<ValidationResponse>"
  +:+ line 20 "<Valid>false</Valid>"
  +:+ line 20 "<Errors>"
  +:+ line 24 "<Error>Empty or invalid XML payload</Error>"
  +:+ line 20 "</Errors>"
  +:+ line 16 "</ValidationResponse>"
  +:+ line 12 "".

Definition body_wrong_root : string :=
  line 16 "<ValidationResponse>"
  +:+ line 20 "<Valid>false</Valid>"
  +:+ line 20 "<Errors>"
  +:+ line 24 "<Error>XML root must be &lt;Invoice&gt;</Error>"
  +:+ line 20 "</Errors>"
  +:+ line 16 "</ValidationResponse>"
  +:+ line 12 "".

(** [errors.map(err => `<Error>${err}</Error>`).join('')] *)
Definition errorTags (errors : list string) : string :=
  join "" (map (λ err, "<Error>" +:+ err +:+ "</Error>") errors).

Definition body_validation_failed (errors : list string) : string :=
  line 17 "<ValidationResponse>"
  +:+ line 20 "<Valid>false</Valid>"
  +:+ line 20 "<Message>Validation Failed</Message>"
  +:+ line 20 "<Errors>"
  +:+ line 24 (errorTags errors)
  +:+ line 17 "</ValidationResponse>"
  +:+ line 13 "".

Definition body_valid : string :=
  line 17 "<ValidationResponse>"
  +:+ line 20 "<Valid>true</Valid>"
  +:+ line 20 "<Message>XML is valid against the Invoice Schema</Message>"
  +:+ line 17 "</ValidationResponse>"
  +:+ line 13 "".

Definition body_invalid_format (message : string) : string :=
  line 12 "<ValidationResponse>"
  +:+ line 16 "<Valid>false</Valid>"
  +:+ line 16 "<Errors>"
  +:+ line 20 ("<Error>Invalid XML Format: " +:+ message +:+ "</Error>")
  +:+ line 16 "</Errors>"
  +:+ line 12 "</ValidationResponse>"
  +:+ line 8 "".

Definition xml_response (code : nat) (text : string) : response :=
  {| status := code; contentType := "application/xml"; body := text |}.

(** The helper [normalize] of the handler: an element with text content
    becomes that text, arrays and objects are normalized member by member. *)
Fixpoint normalize (obj : value) : value :=
  match obj with
  | VObj fields =>
      match fields !! "_text" with
      | Some VUndefined | None => VObj (normalize <$> fields)
      | Some text => text
      end
  | VArr elems => VArr (map normalize elems)
  | _ => obj
  end.

(** [data[key] = v] on a plain object *)
Definition js_set (data : value) (key : string) (v : value) : value :=
  match data with
  | VObj fields => VObj (<[key := v]> fields)
  | _ => data
  end.

Definition isArray (v : value) : bool :=
  match v with VArr _ => true | _ => false end.

(** The block that turns [ItemList: { Item: ... }] into the array the schema
    expects. *)
Definition install_ItemList (cleanData : value) : completion value :=
  itemList ← js_get cleanData "ItemList";
  if truthy itemList then
    item ← js_get itemList "Item";
    if truthy item then
      if isArray item then Return (js_set cleanData "ItemList" item)
      else Return (js_set cleanData "ItemList" (VArr [item]))
    else Return cleanData
  else Return cleanData.

Section Handler.
(** [convert.xml2js(xml, options)] of the [xml-js] package *)
Variable xml2js : string → completion value.
(** [error.message] *)
Variable message : js_error → string.

(** What the handler does with the parsed document. *)
Definition validate_parsed (result : value) : completion response :=
  invoice ← js_get result "Invoice";
  if negb (truthy invoice) then Return (xml_response 400 body_wrong_root)
  else
    cleanData ← install_ItemList (normalize invoice);
    errors ← validate cleanData INVOICE_SCHEMA;
    if bool_decide (0 < length errors)%nat
    then Return (xml_response 200 (body_validation_failed errors))
    else Return (xml_response 200 body_valid).

(** The body of the [try] block. *)
Definition validate_request (xml : value) : completion response :=
  match xml with
  | VStr text =>
      if negb (truthy xml) then Return (xml_response 400 body_empty_payload)
      else result ← xml2js text; validate_parsed result
  | _ => Return (xml_response 400 body_empty_payload)
  end.

(** The handler: [req.body] to the response sent. *)
Definition post_validate (xml : value) : response :=
  match validate_request xml with
  | Return res => res
  | Throw error => xml_response 400 (body_invalid_format (message error))
  end.

End Handler.

(** ** What the specification says a valid value is *)

(** A value that is neither an object nor an array. *)
Definition primitive (data : value) : Prop :=
  typeOf data ≠ "object" ∧ typeOf data ≠ "array".

(** The string [s] matches the pattern [p]. *)
Definition matches (p s : string) : Prop :=
  ∃ regex, RegExp_new p = Some regex ∧ RegExp_test regex s = true.

(** The type constraint, with the lenient reading of numeric strings.  A
    node declares a type when it names one: the empty string names none. *)
Definition type_ok (ty : option string) (data : value) : Prop :=
  ∀ t, ty = Some t → t ≠ "" →
    typeOf data = t ∨ (t = "number" ∧ numeric_string data = true).

(** The enum constraint: the value is one of the listed values. *)
Definition enum_ok (enum : option (list value)) (data : value) : Prop :=
  ∀ allowed, enum = Some allowed → ∃ x, x ∈ allowed ∧ sameValueZero x data = true.

(** The pattern constraint, on strings. *)
Definition pattern_ok (pattern : option string) (data : value) : Prop :=
  ∀ p s, pattern = Some p → data = VStr s → matches p s.

(** The required fields of an object are all present. *)
Definition required_ok (required : option (list string)) (data : value) : Prop :=
  ∀ names fields, required = Some names → data = VObj fields →
    ∀ name, name ∈ names → is_Some (fields !! name).

(** The length of an array lies within the bounds. *)
Definition bounds_ok (minItems maxItems : option nat) (data : value) : Prop :=
  ∀ elems, data = VArr elems →
    (∀ m : nat, minItems = Some m → (m ≤ length elems)%nat) ∧
    (∀ m : nat, maxItems = Some m → (length elems ≤ m)%nat).

(** [satisfies data sch]: [data] meets every constraint the schema declares,
    at every level.  Written from the specification: the type, enum and
    pattern on primitive values, the required fields of an object, the
    bounds of an array, and the same for every declared property that is
    present and for every element. *)
Inductive satisfies : value → schema → Prop :=
  | satisfies_node data ty enum pattern required properties minItems maxItems items :
      type_ok ty data →
      (primitive data → enum_ok enum data) →
      pattern_ok pattern data →
      required_ok required data →
      bounds_ok minItems maxItems data →
      (∀ props fields, properties = Some props → data = VObj fields →
         Forall (λ entry : string * schema,
                   ∀ v, fields !! entry.1 = Some v → v ≠ VUndefined →
                        satisfies v entry.2) props) →
      (∀ it elems, items = Some it → data = VArr elems →
         Forall (λ v, satisfies v it) elems) →
      satisfies data
        (Schema ty enum pattern required properties minItems maxItems items).

(** Schemas on which the validator enforces every declared constraint: a
    declared [maxItems] is not [0], and [required] comes with [properties]. *)
Inductive well_formed : schema → Prop :=
  | well_formed_node (ty : option string) (enum : option (list value))
        (pattern : option string) required properties minItems maxItems items :
      maxItems ≠ Some 0 →
      (is_Some required → is_Some properties) →
      (∀ props, properties = Some props →
         Forall (λ entry : string * schema, well_formed entry.2) props) →
      (∀ it, items = Some it → well_formed it) →
      well_formed (Schema ty enum pattern required properties minItems maxItems items).

(** Schemas whose patterns the runtime accepts. *)
Inductive patterns_compile : schema → Prop :=
  | patterns_compile_node ty enum pattern required properties minItems maxItems items :
      (∀ p, pattern = Some p → p ≠ "" → is_Some (RegExp_new p)) →
      (∀ props, properties = Some props →
         Forall (λ entry : string * schema, patterns_compile entry.2) props) →
      (∀ it, items = Some it → patterns_compile it) →
      patterns_compile
        (Schema ty enum pattern required properties minItems maxItems items).

(** Values without [null] at any depth. *)
Inductive null_free : value → Prop :=
  | null_free_undefined : null_free VUndefined
  | null_free_bool b : null_free (VBool b)
  | null_free_num n : null_free (VNum n)
  | null_free_str s : null_free (VStr s)
  | null_free_arr elems : Forall null_free elems → null_free (VArr elems)
  | null_free_obj fields :
      (∀ name v, fields !! name = Some v → null_free v) → null_free (VObj fields).

(** ** Positions in the data tree *)

Inductive step :=
  | Field (name : string)
  | Index (i : nat).

Definition extend (path : string) (s : step) : string :=
  match s with
  | Field name => path +:+ "." +:+ name
  | Index i => path +:+ "[" +:+ nat_toString i +:+ "]"
  end.

(** The dotted/bracketed rendering of a position below [root]. *)
Definition path_at (root : string) (position : list step) : string :=
  foldl extend root position.

(** [node_at data sch position d s]: walking [position] from [data] leads to
    the value [d], and the same walk through the schema leads to [s]. *)
Inductive node_at : value → schema → list step → value → schema → Prop :=
  | node_here data sch : node_at data sch [] data sch
  | node_field fields sch props name sub v position d s :
      s_properties sch = Some props → (name, sub) ∈ props →
      fields !! name = Some v →
      node_at v sub position d s →
      node_at (VObj fields) sch (Field name :: position) d s
  | node_index elems sch it i v position d s :
      s_items sch = Some it → elems !! i = Some v →
      node_at v it position d s →
      node_at (VArr elems) sch (Index i :: position) d s.

(** The violations of one node and the message reported for each, at the
    path [path] of the node. *)
Inductive reported_at (data : value) (sch : schema) (path : string) : string → Prop :=
  | report_type t :
      s_type sch = Some t → typeOf data ≠ t →
      reported_at data sch path
        (path +:+ ": Expected type " +:+ t +:+ " but found " +:+ typeOf data)
  | report_missing fields names name :
      data = VObj fields → s_required sch = Some names →
      name ∈ names → fields !! name = None →
      reported_at data sch path
        (path +:+ ": Missing required field '" +:+ name +:+ "'")
  | report_enum allowed :
      s_enum sch = Some allowed → includes allowed data = false →
      reported_at data sch path
        (path +:+ ": Value '" +:+ toString data +:+ "' is not in allowed enum: "
              +:+ join_values ", " allowed)
  | report_pattern p s regex :
      s_pattern sch = Some p → data = VStr s →
      RegExp_new p = Some regex → RegExp_test regex s = false →
      reported_at data sch path
        (path +:+ ": Value '" +:+ s +:+ "' does not match pattern " +:+ p)
  | report_minItems elems m :
      data = VArr elems → s_minItems sch = Some m → (length elems < m)%nat →
      reported_at data sch path
        (path +:+ ": Array has " +:+ nat_toString (length elems)
              +:+ " items, minimum is " +:+ nat_toString m)
  | report_maxItems elems m :
      data = VArr elems → s_maxItems sch = Some m → (m < length elems)%nat →
      reported_at data sch path
        (path +:+ ": Array has " +:+ nat_toString (length elems)
              +:+ " items, maximum is " +:+ nat_toString m).

(** ** The names every plain object inherits *)

(** The property names of [Object.prototype].  For these, [key in data] holds
    and [data[key]] is defined on every plain object, whether or not the
    object has the property itself. *)
Definition Object_prototype_names : list string :=
  ["constructor"; "hasOwnProperty"; "isPrototypeOf"; "propertyIsEnumerable";
   "toLocaleString"; "toString"; "valueOf"; "__proto__"; "__defineGetter__";
   "__defineSetter__"; "__lookupGetter__"; "__lookupSetter__"].

(** Names that [Object.prototype] does not define: a plain object has one
    of them only as a property of its own. *)
Definition own_names (names : list string) : Prop :=
  Forall (λ name, name ∉ Object_prototype_names) names.

(** The names one node uses: its required fields and its properties. *)
Definition node_names (sch : schema) : list string :=
  default [] (s_required sch) ++ (default [] (s_properties sch)).*1.

(** Schemas that name no member of [Object.prototype], at any level. *)
Inductive plain_names : schema → Prop :=
  | plain_names_node ty enum pattern required properties minItems maxItems items :
      own_names (node_names
                   (Schema ty enum pattern required properties minItems maxItems items)) →
      (∀ props, properties = Some props →
         Forall (λ entry : string * schema, plain_names entry.2) props) →
      (∀ it, items = Some it → plain_names it) →
      plain_names (Schema ty enum pattern required properties minItems maxItems items).

(** [null_safe data sch]: on its way through [data], the validator meets no
    [null] at a node that lets it pass the type check and declares a
    property or a required field. *)
Inductive null_safe : value → schema → Prop :=
  | null_safe_node data sch :
      (data = VNull → type_mismatch (s_type sch) data = false →
         default [] (s_properties sch) = [] ∧ default [] (s_required sch) = []) →
      (∀ fields props name sub v,
         data = VObj fields → type_mismatch (s_type sch) data = false →
         s_properties sch = Some props → (name, sub) ∈ props →
         fields !! name = Some v → null_safe v sub) →
      (∀ elems it v,
         data = VArr elems → type_mismatch (s_type sch) data = false →
         s_items sch = Some it → v ∈ elems → null_safe v it) →
      null_safe data sch.

(** ** Positions in the schema tree and the wording of the errors *)

(** [schema_at sch position s]: the steps of [position], property names and
    indices, lead from [sch] through [properties] and [items] to [s]. *)
Inductive schema_at : schema → list step → schema → Prop :=
  | schema_here sch : schema_at sch [] sch
  | schema_field sch props name sub position s :
      s_properties sch = Some props → (name, sub) ∈ props →
      schema_at sub position s →
      schema_at sch (Field name :: position) s
  | schema_index sch it i position s :
      s_items sch = Some it →
      schema_at it position s →
      schema_at sch (Index i :: position) s.

(** The six wordings, for the node [s] at [path]. *)
Inductive worded (s : schema) (path : string) : string → Prop :=
  | worded_type t found :
      s_type s = Some t →
      worded s path (path +:+ ": Expected type " +:+ t +:+ " but found " +:+ found)
  | worded_missing names name :
      s_required s = Some names → name ∈ names →
      worded s path (path +:+ ": Missing required field '" +:+ name +:+ "'")
  | worded_enum allowed v :
      s_enum s = Some allowed →
      worded s path
        (path +:+ ": Value '" +:+ v +:+ "' is not in allowed enum: "
              +:+ join_values ", " allowed)
  | worded_pattern p v :
      s_pattern s = Some p →
      worded s path (path +:+ ": Value '" +:+ v +:+ "' does not match pattern " +:+ p)
  | worded_minItems m n :
      s_minItems s = Some m →
      worded s path
        (path +:+ ": Array has " +:+ nat_toString n
              +:+ " items, minimum is " +:+ nat_toString m)
  | worded_maxItems m n :
      s_maxItems s = Some m →
      worded s path
        (path +:+ ": Array has " +:+ nat_toString n
              +:+ " items, maximum is " +:+ nat_toString m).

(** ** The sample route [GET /api/e-invoice-xml/:id]

    The XML-friendly structure the route builds from a sample before it is
    serialized, [{ Invoice: { ...jsonSample, ItemList: { Item:
    jsonSample.ItemList } } }], for a sample that is a plain object. *)
Definition xmlStructure (jsonSample : gmap string value) : value :=
  VObj {[ "Invoice" :=
    VObj (<["ItemList" :=
             VObj {[ "Item" := default VUndefined (jsonSample !! "ItemList") ]}]>
            jsonSample) ]}.

(** Values in which no object has a [_text] member, at any depth: the
    values [normalize] has nothing to do on. *)
Inductive text_free : value → Prop :=
  | text_free_undefined : text_free VUndefined
  | text_free_null : text_free VNull
  | text_free_bool b : text_free (VBool b)
  | text_free_num n : text_free (VNum n)
  | text_free_str s : text_free (VStr s)
  | text_free_arr elems :
      (∀ i v, elems !! i = Some v → text_free v) → text_free (VArr elems)
  | text_free_obj fields :
      default VUndefined (fields !! "_text") = VUndefined →
      (∀ name v, fields !! name = Some v → text_free v) →
      text_free (VObj fields).

(** Values as the parser hands them over: where an object has a [_text]
    member, that member holds a value without [_text] members (a string,
    for the parser). *)
Inductive text_leaves : value → Prop :=
  | text_leaves_undefined : text_leaves VUndefined
  | text_leaves_null : text_leaves VNull
  | text_leaves_bool b : text_leaves (VBool b)
  | text_leaves_num n : text_leaves (VNum n)
  | text_leaves_str s : text_leaves (VStr s)
  | text_leaves_arr elems :
      (∀ i v, elems !! i = Some v → text_leaves v) → text_leaves (VArr elems)
  | text_leaves_text fields text :
      fields !! "_text" = Some text → text ≠ VUndefined → text_free text →
      text_leaves (VObj fields)
  | text_leaves_obj fields :
      default VUndefined (fields !! "_text") = VUndefined →
      (∀ name v, fields !! name = Some v → text_leaves v) →
      text_leaves (VObj fields).

End Validator.

(** ** Well-nested markup *)

Inductive tag :=
  | Open (name : string)
  | Close (name : string).

(** The tags of a document, in order.  [current] holds the characters read
    since the last [<], when inside a tag. *)
Fixpoint scan_tags (cs : list ascii) (current : option (list ascii)) : list tag :=
  match cs with
  | [] => []
  | c :: cs' =>
      match current with
      | None =>
          if bool_decide (c = "<"%char) then scan_tags cs' (Some []) else scan_tags cs' None
      | Some name =>
          if bool_decide (c = ">"%char) then
            match reverse name with
            | "/"%char :: closing => Close (String.string_of_list_ascii closing)
            | opening => Open (String.string_of_list_ascii opening)
            end :: scan_tags cs' None
          else scan_tags cs' (Some (c :: name))
      end
  end.

Fixpoint nested (tags : list tag) (opened : list string) : bool :=
  match tags with
  | [] => bool_decide (opened = [])
  | Open name :: tags' => nested tags' (name :: opened)
  | Close name :: tags' =>
      match opened with
      | top :: opened' => bool_decide (top = name) && nested tags' opened'
      | [] => false
      end
  end.

(** Every start tag of the document is closed by a matching end tag, in
    nesting order: what a well-formed XML document of plain elements needs. *)
Definition well_nested (doc : string) : bool :=
  nested (scan_tags (String.list_ascii_of_string doc) None) [].

(** [needle] occurs in [text]. *)
Definition occurs_in (needle text : string) : Prop :=
  ∃ before after, text = before +:+ needle +:+ after.

(** ** A host for closed examples

    Numbers are integers, a numeral is a string of digits and a pattern is a
    literal text, found anywhere in the subject as [RegExp.prototype.test]
    finds it. *)

Definition is_digit (c : ascii) : bool :=
  (48 <=? nat_of_ascii c)%nat && (nat_of_ascii c <=? 57)%nat.

Definition all_digits (s : string) : bool :=
  forallb is_digit (String.list_ascii_of_string s).

Definition leading_digit (s : string) : bool :=
  match s with
  | String c _ => is_digit c
  | EmptyString => false
  end.

Fixpoint literal_at (p s : list ascii) : bool :=
  match p, s with
  | [], _ => true
  | c :: p', d :: s' => bool_decide (c = d) && literal_at p' s'
  | _ :: _, [] => false
  end.

Fixpoint literal_in (p s : list ascii) : bool :=
  literal_at p s || match s with
                    | [] => false
                    | _ :: s' => literal_in p s'
                    end.

Lemma literal_in_empty s : literal_in [] s = true.
Proof. by destruct s. Qed.

Definition literal_host : JsHost := {|
  number := Z;
  number_sameValueZero := Z.eqb;
  number_toString z := NilEmpty.string_of_int (Z.to_int z);
  number_truthy z := negb (Z.eqb z 0);
  parseFloat_isNaN s := negb (leading_digit s);
  isFinite_string s := all_digits s;
  RegExp := string;
  RegExp_new p := Some p;
  RegExp_test regex s :=
    literal_in (String.list_ascii_of_string regex) (String.list_ascii_of_string s);
  RegExp_empty s := ex_intro _ "" (conj eq_refl (literal_in_empty _));
|}.

(** ** Sample documents

    The invalid document of the route's test,
    [<Invoice><TranDtls><SupTyp>B2B</SupTyp></TranDtls></Invoice>]: as the
    XML parser returns it in compact form, and after [normalize]. *)

Definition sample_xml : string :=
  "<Invoice><TranDtls><SupTyp>B2B</SupTyp></TranDtls></Invoice>".

Definition sample_parsed : value (host := literal_host) :=
  VObj {[ "Invoice" :=
    VObj {[ "TranDtls" := VObj {[ "SupTyp" := VObj {[ "_text" := VStr "B2B" ]} ]} ]} ]}.

Definition sample_invoice : value (host := literal_host) :=
  VObj {[ "TranDtls" := VObj {[ "SupTyp" := VStr "B2B" ]} ]}.

Definition sample_errors : list string :=
  ["root: Missing required field 'Version'";
   "root: Missing required field 'DocDtls'";
   "root: Missing required field 'SellerDtls'";
   "root: Missing required field 'BuyerDtls'";
   "root: Missing required field 'ItemList'";
   "root: Missing required field 'ValDtls'";
   "root.TranDtls: Missing required field 'RegRev'"].

(** A parser that knows the sample document. *)
Definition sample_xml2js (xml : string) : completion (value (host := literal_host)) :=
  if bool_decide (xml = sample_xml) then Return sample_parsed
  else Throw (Error_xml "unexpected document").

Definition sample_message (error : js_error) : string :=
  match error with
  | Error_xml text => text
  | TypeError_in key => "Cannot use 'in' operator to search for '" +:+ key +:+ "' in null"
  | TypeError_read key => "Cannot read properties of null (reading '" +:+ key +:+ "')"
  | SyntaxError_RegExp pattern => "Invalid regular expression: /" +:+ pattern +:+ "/"
  end.

(** An invoice that meets [INVOICE_SCHEMA], with its numbers in string form
    as the XML route sees them.  Under [literal_host] a pattern is a literal
    text, so the seller's [Gstin] carries the text of the pattern. *)

Definition valid_item : value (host := literal_host) :=
  VObj {[ "SlNo" := VStr "1"; "PrdDesc" := VStr "Rice"; "HsnCd" := VStr "1001";
          "Qty" := VStr "10"; "Unit" := VStr "KGS"; "UnitPrice" := VStr "100";
          "TotAmt" := VStr "1000"; "AssAmt" := VStr "1000"; "GstRt" := VStr "12";
          "IgstAmt" := VStr "0"; "CgstAmt" := VStr "60"; "SgstAmt" := VStr "60";
          "TotItemVal" := VStr "1120" ]}.

Definition valid_invoice : gmap string (value (host := literal_host)) :=
  {[ "Version" := VStr "1.1";
     "TranDtls" := VObj {[ "SupTyp" := VStr "B2B"; "RegRev" := VStr "N" ]};
     "DocDtls" := VObj {[ "Typ" := VStr "INV"; "No" := VStr "DOC/001";
                          "Dt" := VStr "01/08/2020" ]};
     "SellerDtls" :=
       VObj {[ "Gstin" := VStr "^[0-9]{2}[A-Z]{5}[0-9]{4}[A-Z]{1}[1-9A-Z]{1}Z[0-9A-Z]{1}$";
               "LglNm" := VStr "Seller"; "Stcd" := VStr "27" ]};
     "BuyerDtls" := VObj {[ "Gstin" := VStr "29AWGPV7107B1Z1"; "LglNm" := VStr "Buyer";
                            "Stcd" := VStr "29"; "Pos" := VStr "29" ]};
     "ItemList" := VArr [valid_item];
     "ValDtls" := VObj {[ "AssVal" := VStr "1000"; "CgstVal" := VStr "60";
                          "SgstVal" := VStr "60"; "IgstVal" := VStr "0";
                          "TotInvVal" := VStr "1120" ]} ]}.

(** A parser that answers every document with the structure of
    [valid_invoice]. *)
Definition valid_xml2js (xml : string) : completion (value (host := literal_host)) :=
  Return (xmlStructure valid_invoice).

(** * Properties *)

(** ** The loops *)

Section Collect.
Context {A : Type}.
Implicit Types (cs : list (completion (list A))) (errors : list A).

Lemma collect_Return cs errors :
  collect cs = Return errors ↔
  ∃ parts, Forall2 (λ c part, c = Return part) cs parts ∧ errors = concat parts.
Proof.
  revert errors. induction cs as [|c cs IH]; intros errors; simpl.
  - split.
    + intros [= <-]. exists []. by split; [constructor|].
    + intros (parts & Hparts & ->). by inversion Hparts.
  - destruct c as [xs|e]; simpl.
    + destruct (collect cs) as [ys|e]; simpl.
      * split.
        -- intros [= <-]. destruct (proj1 (IH ys) eq_refl) as (parts & Hparts & ->).
           exists (xs :: parts). split; [by constructor|done].
        -- intros (parts & Hparts & ->). inversion Hparts as [|? part ? parts' Hc Hrest]; subst.
           injection Hc as <-. simpl. do 2 f_equal.
           assert (Return ys = Return (concat parts')) as [= ->]; [|done].
           apply IH. by exists parts'.
      * split; [done|].
        intros (parts & Hparts & ->). inversion Hparts as [|? part ? parts' Hc Hrest]; subst.
        assert (Throw e = Return (concat parts')) as Habs; [|done].
        apply IH. by exists parts'.
    + split; [done|].
      intros (parts & Hparts & ->). by inversion Hparts.
Qed.

Lemma collect_Return_nil cs :
  collect cs = Return [] ↔ Forall (λ c, c = Return []) cs.
Proof.
  induction cs as [|c cs IH]; simpl.
  - split; [by constructor|done].
  - destruct c as [xs|e]; simpl.
    + destruct (collect cs) as [ys|e]; simpl.
      * split.
        -- intros [= Happ]. apply app_eq_nil in Happ as [-> ->].
           constructor; [done|by apply IH].
        -- intros Hall. inversion Hall as [|? ? [= ->] Hrest]; subst.
           apply IH in Hrest as [= ->]. done.
      * split; [done|].
        intros Hall. inversion Hall as [|? ? _ Hrest]; subst. by apply IH in Hrest.
    + split; [done|]. intros Hall. by inversion Hall.
Qed.

Lemma collect_Return_elem cs errors e :
  collect cs = Return errors → e ∈ errors →
  ∃ i part, cs !! i = Some (Return part) ∧ e ∈ part.
Proof.
  revert errors. induction cs as [|c cs IH]; intros errors; simpl.
  - by intros [= <-] ?%elem_of_nil.
  - destruct c as [xs|]; simpl; [|done].
    destruct (collect cs) as [ys|]; simpl; [|done].
    intros [= <-] [Hin|Hin]%elem_of_app.
    + by exists 0, xs.
    + destruct (IH ys eq_refl Hin) as (i & part & Hi & Hpart). by exists (S i), part.
Qed.

Lemma collect_ext {B} (f g : B → completion (list A)) (l : list B) :
  (∀ x, x ∈ l → f x = g x) → collect (map f l) = collect (map g l).
Proof.
  induction l as [|x l IH]; intros Hfg; simpl; [done|].
  rewrite (Hfg x), IH; [done| |]; [|by left].
  intros y Hy. apply Hfg. by right.
Qed.

End Collect.

(** ** The shape of [validateSchema] *)

Section Structure.
Context `{host : JsHost}.
Implicit Types (data v : value) (sch sub it : schema) (path : string).

(** Induction on a schema tree, with the hypothesis for every declared
    property and for the item schema. *)
Lemma schema_tree_ind (P : schema → Prop) :
  (∀ ty enum pattern required properties minItems maxItems items,
     Forall (λ entry, P entry.2) (default [] properties) →
     from_option P True items →
     P (Schema ty enum pattern required properties minItems maxItems items)) →
  ∀ sch, P sch.
Proof.
  intros step. fix self 1.
  intros [ty enum pattern required properties minItems maxItems items].
  apply step.
  - destruct properties as [props|]; simpl; [|constructor].
    induction props as [|[name sub] props IH]; constructor; [apply self|apply IH].
  - destruct items as [it|]; simpl; [apply self|exact I].
Qed.

Lemma completion_app_nil_r {A} (c : completion (list A)) :
  (xs ← c; ys ← Return []; mret (xs ++ ys)) = c.
Proof. destruct c as [xs|e]; simpl; [|done]. by rewrite app_nil_r. Qed.

Lemma typeOf_primitive data :
  primitive data ↔
  negb (bool_decide (typeOf data = "object")) && negb (bool_decide (typeOf data = "array"))
    = true.
Proof.
  unfold primitive. rewrite andb_true_iff, !negb_true_iff, !bool_decide_eq_false. done.
Qed.

(** One unfolding of the recursion. *)
Lemma validateSchema_unfold data ty enum pattern required properties minItems maxItems
    items path :
  validateSchema data
    (Schema ty enum pattern required properties minItems maxItems items) path
  = if type_mismatch ty data
    then Return [type_error path (default "" ty) (typeOf data)]
    else if negb (bool_decide (typeOf data = "object"))
            && negb (bool_decide (typeOf data = "array"))
    then
      pattern_errors ← check_pattern path data pattern;
      mret (check_enum path data enum ++ pattern_errors)
    else
      object_errors ←
        (match properties with
         | Some props =>
             if bool_decide (typeOf data = "object") then
               required_errors ← check_required path data required;
               prop_errors ← collect (map (validate_property data path) props);
               mret (required_errors ++ prop_errors)
             else Return []
         | None => Return []
         end);
      array_errors ←
        (if bool_decide (typeOf data = "array") then
           item_errors ←
             (match items with
              | Some it => forEach_indexed (validate_item it path) (elems_of data)
              | None => Return []
              end);
           mret (check_minItems path (length (elems_of data)) minItems
                   ++ check_maxItems path (length (elems_of data)) maxItems
                   ++ item_errors)
         else Return []);
      mret (object_errors ++ array_errors).
Proof. reflexivity. Qed.

(** The type check fails: the one error is returned and nothing else runs. *)
Lemma validateSchema_mismatch data sch path :
  type_mismatch (s_type sch) data = true →
  validateSchema data sch path
  = Return [type_error path (default "" (s_type sch)) (typeOf data)].
Proof. destruct sch. rewrite validateSchema_unfold. simpl. by intros ->. Qed.

(** A value that is neither an object nor an array: enum, then pattern. *)
Lemma validateSchema_primitive data sch path :
  type_mismatch (s_type sch) data = false → primitive data →
  validateSchema data sch path
  = (pattern_errors ← check_pattern path data (s_pattern sch);
     mret (check_enum path data (s_enum sch) ++ pattern_errors)).
Proof.
  destruct sch. rewrite validateSchema_unfold. simpl.
  intros -> Hprim%typeOf_primitive. by rewrite Hprim.
Qed.

(** An object: the required fields, then the declared properties. *)
Lemma validateSchema_object fields sch path :
  type_mismatch (s_type sch) (VObj fields) = false →
  validateSchema (VObj fields) sch path
  = match s_properties sch with
    | Some props =>
        required_errors ← check_required path (VObj fields) (s_required sch);
        prop_errors ← collect (map (validate_property (VObj fields) path) props);
        mret (required_errors ++ prop_errors)
    | None => Return []
    end.
Proof.
  destruct sch as [ty enum pattern required properties minItems maxItems items].
  rewrite validateSchema_unfold. cbn [s_type s_properties s_required]. intros ->.
  cbn [typeOf].
  rewrite (bool_decide_eq_true_2 ("object" = "object")) by done.
  rewrite (bool_decide_eq_false_2 ("object" = "array")) by done. cbn [negb andb].
  destruct properties as [props|]; [|done]. apply completion_app_nil_r.
Qed.

(** An array: the two bounds, then the elements in index order. *)
Lemma validateSchema_array elems sch path :
  type_mismatch (s_type sch) (VArr elems) = false →
  validateSchema (VArr elems) sch path
  = (item_errors ←
       match s_items sch with
       | Some it => forEach_indexed (validate_item it path) elems
       | None => Return []
       end;
     mret (check_minItems path (length elems) (s_minItems sch)
             ++ check_maxItems path (length elems) (s_maxItems sch)
             ++ item_errors)).
Proof.
  destruct sch as [ty enum pattern required properties minItems maxItems items].
  rewrite validateSchema_unfold. cbn [s_type s_items s_minItems s_maxItems]. intros ->.
  cbn [typeOf elems_of].
  rewrite (bool_decide_eq_false_2 ("array" = "object")) by done.
  rewrite (bool_decide_eq_true_2 ("array" = "array")) by done. cbn [negb andb].
  destruct properties, items as [it|]; simpl; try done;
    by destruct (forEach_indexed _ _).
Qed.

(** [null] under a schema that accepts objects: the accesses to its
    properties raise. *)
Lemma validateSchema_null sch path :
  type_mismatch (s_type sch) VNull = false →
  validateSchema VNull sch path
  = match s_properties sch with
    | Some props =>
        required_errors ← check_required path VNull (s_required sch);
        prop_errors ← collect (map (validate_property VNull path) props);
        mret (required_errors ++ prop_errors)
    | None => Return []
    end.
Proof.
  destruct sch as [ty enum pattern required properties minItems maxItems items].
  rewrite validateSchema_unfold. cbn [s_type s_properties s_required]. intros ->.
  cbn [typeOf].
  rewrite (bool_decide_eq_true_2 ("object" = "object")) by done.
  rewrite (bool_decide_eq_false_2 ("object" = "array")) by done. cbn [negb andb].
  destruct properties as [props|]; [|done]. apply completion_app_nil_r.
Qed.

End Structure.

(** ** Strings *)

Lemma string_app_inv_head (p a b : string) : p +:+ a = p +:+ b → a = b.
Proof. induction p as [|c p IH]; simpl; [done|]. intros [= H]. by apply IH. Qed.

(** ** The type check *)

Section TypeCheck.
Context `{host : JsHost}.
Implicit Types (data : value) (sch : schema) (path : string).

Lemma type_mismatch_object ty fields1 fields2 :
  type_mismatch ty (VObj fields1) = type_mismatch ty (VObj fields2).
Proof. reflexivity. Qed.

(** C9: when the runtime category of the value differs from the type the
    node declares (a non-empty type name), and the value is not a numeric
    string under a [number] node, [validateSchema] returns the single error
    ["{path}: Expected type {schema.type} but found {type}"]: no enum,
    pattern, required-field or element check contributes to the result. *)
Theorem type_mismatch_only_error data sch path t :
  s_type sch = Some t → t ≠ "" →
  typeOf data ≠ t →
  ¬ (t = "number" ∧ numeric_string data = true) →
  validateSchema data sch path
  = Return [path +:+ ": Expected type " +:+ t +:+ " but found " +:+ typeOf data].
Proof.
  intros Hty Ht Hdiff Hlenient.
  rewrite validateSchema_mismatch; rewrite Hty; [done|].
  unfold type_mismatch, lenient, type_differs, type_is, str_truthy.
  rewrite !andb_true_iff, !negb_true_iff, !andb_false_iff, !bool_decide_eq_false.
  repeat split.
  - destruct (decide (t = "number")) as [->|Hnum].
    + right. destruct (numeric_string data) eqn:Hnumeric; [|done].
      destruct Hlenient. done.
    + left. left. congruence.
  - done.
  - congruence.
  - destruct (decide (t = "number")) as [->|Hnum].
    + right. intros Hnumber. apply Hdiff. by destruct data.
    + left. congruence.
Qed.

(** C4: a numeric-looking string under a node of type [number] passes the
    type check.  The call goes on to the enum and pattern checks, and no
    error it returns is an "Expected type" error of this node. *)
Theorem numeric_string_passes_type_check s sch path :
  s_type sch = Some "number" →
  parseFloat_isNaN s = false → isFinite_string s = true →
  validateSchema (VStr s) sch path
  = (pattern_errors ← check_pattern path (VStr s) (s_pattern sch);
     mret (check_enum path (VStr s) (s_enum sch) ++ pattern_errors))
  ∧ ∀ errors, validateSchema (VStr s) sch path = Return errors →
      ∀ expected found,
        path +:+ ": Expected type " +:+ expected +:+ " but found " +:+ found ∉ errors.
Proof.
  intros Hty Hnan Hfinite.
  assert (validateSchema (VStr s) sch path
          = (pattern_errors ← check_pattern path (VStr s) (s_pattern sch);
             mret (check_enum path (VStr s) (s_enum sch) ++ pattern_errors))) as Hrun.
  { apply validateSchema_primitive; [|by split].
    rewrite Hty. unfold type_mismatch, lenient, type_is. simpl.
    by rewrite Hnan, Hfinite. }
  split; [done|].
  intros errors. rewrite Hrun. intros Herrors expected found Hin.
  assert (∀ e, e ∈ check_enum path (VStr s) (s_enum sch) →
               ∃ rest, e = path +:+ ": Value '" +:+ rest) as Henum.
  { intros e. unfold check_enum. destruct (s_enum sch) as [allowed|]; [|by intros ?%elem_of_nil].
    destruct (includes allowed (VStr s)); [by intros ?%elem_of_nil|].
    intros ->%list_elem_of_singleton. by eexists. }
  assert (∀ es e, check_pattern path (VStr s) (s_pattern sch) = Return es → e ∈ es →
                  ∃ rest, e = path +:+ ": Value '" +:+ rest) as Hpattern.
  { intros es e. unfold check_pattern. destruct (s_pattern sch) as [p|].
    - destruct (str_truthy (Some p)); [|by intros [= <-] ?%elem_of_nil].
      destruct (RegExp_new p) as [regex|]; [|done].
      destruct (RegExp_test regex s); intros [= <-];
        [by intros ?%elem_of_nil|intros ->%list_elem_of_singleton; by eexists].
    - by intros [= <-] ?%elem_of_nil. }
  destruct (check_pattern path (VStr s) (s_pattern sch)) as [es|]; [|done].
  simpl in Herrors. injection Herrors as <-.
  apply elem_of_app in Hin as [Hin|Hin].
  - apply Henum in Hin as [rest Heq]. by apply string_app_inv_head in Heq.
  - apply (Hpattern es _ eq_refl) in Hin as [rest Heq].
    by apply string_app_inv_head in Heq.
Qed.

End TypeCheck.

Lemma numeric_string_passes_type_check_witness :
  validateSchema (host := literal_host) (VStr "100") number_node "root.ItemList[0].Qty"
  = (pattern_errors ← check_pattern (host := literal_host)
                        "root.ItemList[0].Qty" (VStr "100") None;
     mret (check_enum (host := literal_host) "root.ItemList[0].Qty" (VStr "100") None
             ++ pattern_errors))
  ∧ ∀ errors,
      validateSchema (host := literal_host) (VStr "100") number_node
        "root.ItemList[0].Qty" = Return errors →
      ∀ expected found,
        "root.ItemList[0].Qty" +:+ ": Expected type " +:+ expected
          +:+ " but found " +:+ found ∉ errors.
Proof.
  apply (numeric_string_passes_type_check (host := literal_host)
           "100" number_node "root.ItemList[0].Qty"); reflexivity.
Defined.

Lemma type_mismatch_only_error_witness :
  validateSchema (host := literal_host) (VStr "ten") number_node "root.ItemList[0].Qty"
  = Return ["root.ItemList[0].Qty: Expected type number but found string"].
Proof.
  apply (type_mismatch_only_error (host := literal_host)
           (VStr "ten") number_node "root.ItemList[0].Qty" "number").
  - reflexivity.
  - discriminate.
  - discriminate.
  - intros [_ Hnumeric]. vm_compute in Hnumeric. discriminate.
Defined.

(** ** Objects and arrays *)

Section Traversal.
Context `{host : JsHost}.
Implicit Types (data v : value) (sch sub it : schema) (path : string)
  (fields : gmap string value).

Lemma filter_ext_in {A} (P Q : A → Prop) `{!∀ x, Decision (P x), !∀ x, Decision (Q x)}
    (l : list A) :
  (∀ x, x ∈ l → P x ↔ Q x) → filter P l = filter Q l.
Proof.
  induction l as [|x l IH]; intros HPQ; [done|].
  rewrite !filter_cons, IH by (intros y Hy; apply HPQ; by right).
  destruct (decide (P x)) as [HP|HP], (decide (Q x)) as [HQ|HQ]; try done.
  - destruct HQ. by apply (HPQ x); [left|].
  - destruct HP. by apply (HPQ x); [left|].
Qed.

Lemma check_required_object path fields required :
  check_required path (VObj fields) required
  = Return (map (required_error path)
              (filter (λ name, fields !! name = None) (default [] required))).
Proof.
  destruct required as [names|]; [|done]. simpl.
  induction names as [|name names IH]; [done|].
  simpl in *. rewrite IH. simpl. rewrite filter_cons.
  destruct (fields !! name) as [v|] eqn:Hname.
  - rewrite bool_decide_eq_true_2 by eauto. by rewrite decide_False.
  - rewrite bool_decide_eq_false_2 by (by intros [? ?]). by rewrite decide_True.
Qed.

Lemma validate_property_object fields path name sub :
  validate_property (VObj fields) path (name, sub)
  = match fields !! name with
    | Some v => if is_undefined v then Return []
                else validateSchema v sub (path +:+ "." +:+ name)
    | None => Return []
    end.
Proof. unfold validate_property. simpl. by destruct (fields !! name). Qed.

(** C6: properties the schema node does not name are ignored.  Two objects
    that agree on every name in the node's [required] list and [properties]
    map get the same result, whatever else they hold. *)
Theorem undeclared_properties_ignored fields1 fields2 sch path :
  (∀ name, name ∈ default [] (s_required sch) → fields1 !! name = fields2 !! name) →
  (∀ name, name ∈ (default [] (s_properties sch)).*1 →
           fields1 !! name = fields2 !! name) →
  validateSchema (VObj fields1) sch path = validateSchema (VObj fields2) sch path.
Proof.
  intros Hrequired Hproperties.
  destruct (type_mismatch (s_type sch) (VObj fields1)) eqn:Htype.
  - rewrite !validateSchema_mismatch; [done| |done].
    by rewrite <- (type_mismatch_object _ fields1).
  - rewrite !validateSchema_object; [|by rewrite <- (type_mismatch_object _ fields1)|done].
    destruct (s_properties sch) as [props|]; [|done]. simpl in Hproperties.
    rewrite !check_required_object.
    assert (filter (λ name, fields1 !! name = None) (default [] (s_required sch))
            = filter (λ name, fields2 !! name = None) (default [] (s_required sch)))
      as ->.
    { apply filter_ext_in. intros name Hname. by rewrite (Hrequired name Hname). }
    rewrite (collect_ext (validate_property (VObj fields1) path)
               (validate_property (VObj fields2) path)); [done|].
    intros [name sub] Hentry. rewrite !validate_property_object.
    rewrite (Hproperties name); [done|].
    apply list_elem_of_fmap. by exists (name, sub).
Qed.

(** In the model, where a property of an object is an own property: the
    errors of an object are the missing-field errors followed by the errors
    of each declared property, those of an array the bound errors followed
    by the errors of each element. *)
Lemma errors_decomposed sch path :
  (∀ fields props errors,
     type_mismatch (s_type sch) (VObj fields) = false →
     s_properties sch = Some props →
     validateSchema (VObj fields) sch path = Return errors →
     ∃ per_property : list (list string),
       errors
       = map (λ name, path +:+ ": Missing required field '" +:+ name +:+ "'")
             (filter (λ name, fields !! name = None) (default [] (s_required sch)))
         ++ concat per_property
       ∧ Forall2 (λ (entry : string * schema) part,
                    match fields !! entry.1 with
                    | Some v =>
                        if is_undefined v then part = []
                        else validateSchema v entry.2 (path +:+ "." +:+ entry.1)
                             = Return part
                    | None => part = []
                    end) props per_property)
  ∧ (∀ elems errors,
       type_mismatch (s_type sch) (VArr elems) = false →
       validateSchema (VArr elems) sch path = Return errors →
       ∃ per_item : list (list string),
         errors
         = check_minItems path (length elems) (s_minItems sch)
           ++ check_maxItems path (length elems) (s_maxItems sch)
           ++ concat per_item
         ∧ match s_items sch with
           | Some it =>
               Forall2 (λ (indexed : nat * value) part,
                          validateSchema indexed.2 it
                            (path +:+ "[" +:+ nat_toString indexed.1 +:+ "]")
                          = Return part)
                       (imap pair elems) per_item
           | None => per_item = []
           end).
Proof.
  split.
  - intros fields props errors Htype Hprops.
    rewrite validateSchema_object, Hprops, check_required_object by done. simpl.
    destruct (collect _) as [prop_errors|] eqn:Hcollect; [|done].
    simpl. intros [= <-].
    apply collect_Return in Hcollect as (parts & Hparts & ->).
    exists parts. split; [done|].
    apply Forall2_fmap_l in Hparts.
    eapply Forall2_impl; [exact Hparts|].
    intros [name sub] part. unfold compose. rewrite validate_property_object. simpl.
    destruct (fields !! name) as [v|]; [|by intros [= <-]].
    destruct (is_undefined v); [by intros [= <-]|done].
  - intros elems errors Htype.
    rewrite validateSchema_array by done.
    destruct (s_items sch) as [it|].
    + unfold forEach_indexed.
      destruct (collect _) as [item_errors|] eqn:Hcollect; [|done].
      simpl. intros [= <-].
      apply collect_Return in Hcollect as (parts & Hparts & ->).
      exists parts. split; [done|].
      assert (imap (λ index item, validate_item it path item index) elems
              = (λ indexed : nat * value, validate_item it path indexed.2 indexed.1)
                  <$> imap pair elems) as Himap.
      { rewrite fmap_imap. by apply imap_ext. }
      rewrite Himap in Hparts. by apply Forall2_fmap_l in Hparts.
    + simpl. intros [= <-]. by exists [].
Qed.

End Traversal.

(** ** The wording and the path of every error *)

Section Messages.
Context `{host : JsHost}.
Implicit Types (data v : value) (sch sub it : schema) (path root : string)
  (fields : gmap string value).

Lemma type_mismatch_declared ty data :
  type_mismatch ty data = true → ∃ t, ty = Some t ∧ t ≠ "" ∧ typeOf data ≠ t.
Proof.
  unfold type_mismatch, type_differs, type_is, str_truthy.
  rewrite !andb_true_iff, !negb_true_iff. intros [[_ [Htruthy Hdiff]] _].
  destruct ty as [t|]; [|done]. exists t.
  apply negb_true_iff, bool_decide_eq_false in Htruthy.
  apply bool_decide_eq_false in Hdiff. split; [done|]. split; congruence.
Qed.

(** [null] passes for an object; whenever the call then returns at all, it
    returns no error. *)
Lemma validateSchema_null_Return sch path errors :
  type_mismatch (s_type sch) VNull = false →
  validateSchema VNull sch path = Return errors → errors = [].
Proof.
  intros Htype. rewrite validateSchema_null by done.
  destruct (s_properties sch) as [props|]; [|by intros [= <-]].
  destruct (s_required sch) as [[|name names]|]; simpl; try done;
    destruct props as [|[propKey sub] props]; simpl; try done; by intros [= <-].
Qed.

Lemma primitive_reports data sch path errors e :
  type_mismatch (s_type sch) data = false → primitive data →
  validateSchema data sch path = Return errors → e ∈ errors →
  reported_at data sch path e.
Proof.
  intros Htype Hprim. rewrite validateSchema_primitive by done.
  destruct (check_pattern path data (s_pattern sch)) as [pattern_errors|] eqn:Hpattern;
    [|done].
  simpl. intros [= <-] [Hin|Hin]%elem_of_app.
  - unfold check_enum in Hin. destruct (s_enum sch) as [allowed|] eqn:Henum;
      [|by apply elem_of_nil in Hin].
    destruct (includes allowed data) eqn:Hincludes; [by apply elem_of_nil in Hin|].
    apply list_elem_of_singleton in Hin as ->. by apply report_enum.
  - unfold check_pattern in Hpattern.
    destruct (s_pattern sch) as [p|] eqn:Hp, data as [| | | |s| |];
      try (injection Hpattern as <-; by apply elem_of_nil in Hin).
    destruct (str_truthy (Some p));
      [|injection Hpattern as <-; by apply elem_of_nil in Hin].
    destruct (RegExp_new p) as [regex|] eqn:Hregex; [|done].
    destruct (RegExp_test regex s) eqn:Htest; injection Hpattern as <-;
      [by apply elem_of_nil in Hin|].
    apply list_elem_of_singleton in Hin as ->. by eapply report_pattern.
Qed.

Lemma minItems_reports elems sch path e :
  e ∈ check_minItems path (length elems) (s_minItems sch) →
  reported_at (VArr elems) sch path e.
Proof.
  unfold check_minItems, nat_truthy. destruct (s_minItems sch) as [m|] eqn:Hmin;
    [|by intros ?%elem_of_nil].
  destruct (_ && _) eqn:Hcond; [|by intros ?%elem_of_nil].
  apply andb_true_iff in Hcond as [_ Hlt%bool_decide_eq_true].
  intros ->%list_elem_of_singleton. by eapply report_minItems.
Qed.

Lemma maxItems_reports elems sch path e :
  e ∈ check_maxItems path (length elems) (s_maxItems sch) →
  reported_at (VArr elems) sch path e.
Proof.
  unfold check_maxItems, nat_truthy. destruct (s_maxItems sch) as [m|] eqn:Hmax;
    [|by intros ?%elem_of_nil].
  destruct (_ && _) eqn:Hcond; [|by intros ?%elem_of_nil].
  apply andb_true_iff in Hcond as [_ Hlt%bool_decide_eq_true].
  intros ->%list_elem_of_singleton. by eapply report_maxItems.
Qed.

(** In the model, where a property of an object is an own property: every
    error is reported for a node of the data tree and carries the wording of
    its kind. *)
Lemma reported_errors_located sch data root errors e :
  validateSchema data sch root = Return errors → e ∈ errors →
  ∃ position d s,
    node_at data sch position d s ∧ reported_at d s (path_at root position) e.
Proof.
  revert data root errors e.
  induction sch as [ty enum pattern required properties minItems maxItems items
                      IHprops IHitems] using schema_tree_ind.
  intros data root errors e.
  set (sch := Schema ty enum pattern required properties minItems maxItems items).
  intros Hrun He.
  destruct (type_mismatch ty data) eqn:Htype.
  { rewrite (validateSchema_mismatch data sch) in Hrun by done. injection Hrun as <-.
    apply list_elem_of_singleton in He as ->.
    apply type_mismatch_declared in Htype as (t & -> & Ht & Hdiff).
    exists [], data, sch. split; [constructor|]. by apply (report_type _ _ _ t). }
  assert (primitive data → ∃ position d s,
            node_at data sch position d s ∧ reported_at d s (path_at root position) e)
    as Hprimitive.
  { intros Hprim. exists [], data, sch. split; [constructor|].
    by eapply primitive_reports. }
  destruct data as [| |b|n|s|elems|fields]; try (by apply Hprimitive).
  - (* null *)
    apply (validateSchema_null_Return sch) in Hrun; [|done]. subst errors.
    by apply elem_of_nil in He.
  - (* an array *)
    rewrite (validateSchema_array elems sch) in Hrun by done. simpl in Hrun.
    destruct items as [it|]; simpl in Hrun, IHitems.
    + unfold forEach_indexed in Hrun.
      destruct (collect _) as [item_errors|] eqn:Hcollect; [|done].
      simpl in Hrun. injection Hrun as <-.
      apply elem_of_app in He as [He|He]; [|apply elem_of_app in He as [He|He]].
      * exists [], (VArr elems), sch. split; [constructor|].
        by apply minItems_reports.
      * exists [], (VArr elems), sch. split; [constructor|].
        by apply maxItems_reports.
      * destruct (collect_Return_elem _ _ _ Hcollect He) as (i & part & Hi & Hpart).
        apply list_lookup_imap_Some in Hi as (v & Hv & Hcall).
        symmetry in Hcall. unfold validate_item in Hcall.
        destruct (IHitems v _ _ _ Hcall Hpart) as (position & d & s & Hnode & Hreport).
        exists (Index i :: position), d, s. split; [|done].
        by eapply node_index.
    + injection Hrun as <-. rewrite app_nil_r in He.
      apply elem_of_app in He as [He|He].
      * exists [], (VArr elems), sch. split; [constructor|].
        by apply minItems_reports.
      * exists [], (VArr elems), sch. split; [constructor|].
        by apply maxItems_reports.
  - (* an object *)
    rewrite (validateSchema_object fields sch) in Hrun by done. simpl in Hrun.
    destruct properties as [props|]; [|injection Hrun as <-; by apply elem_of_nil in He].
    rewrite check_required_object in Hrun. simpl in Hrun, IHprops.
    destruct (collect _) as [prop_errors|] eqn:Hcollect; [|done].
    simpl in Hrun. injection Hrun as <-.
    apply elem_of_app in He as [He|He].
    + exists [], (VObj fields), sch. split; [constructor|].
      apply list_elem_of_fmap in He as (name & -> & Hname).
      apply list_elem_of_filter in Hname as [Hmissing Hname].
      destruct required as [names|]; [|by apply elem_of_nil in Hname].
      by eapply report_missing.
    + destruct (collect_Return_elem _ _ _ Hcollect He) as (i & part & Hi & Hpart).
      apply list_lookup_fmap_Some in Hi as ([name sub] & Hcall & Hentry).
      symmetry in Hcall. rewrite validate_property_object in Hcall.
      destruct (fields !! name) as [v|] eqn:Hv;
        [|injection Hcall as <-; by apply elem_of_nil in Hpart].
      destruct (is_undefined v);
        [injection Hcall as <-; by apply elem_of_nil in Hpart|].
      apply list_elem_of_lookup_2 in Hentry.
      pose proof (proj1 (Forall_forall _ _) IHprops _ Hentry) as IH. simpl in IH.
      destruct (IH v _ _ _ Hcall Hpart) as (position & d & s & Hnode & Hreport).
      exists (Field name :: position), d, s. split; [|done].
      by eapply node_field.
Qed.

Lemma node_at_schema_at data sch position d s :
  node_at data sch position d s → schema_at sch position s.
Proof.
  induction 1 as [|? ? ? ? ? ? ? ? ? Hprops Hentry _ _ IH|? ? ? ? ? ? ? ? Hit _ _ IH].
  - constructor.
  - by eapply schema_field.
  - by eapply schema_index.
Qed.

Lemma reported_at_worded d s path e : reported_at d s path e → worded s path e.
Proof.
  intros [t Ht _|fields names name _ Hnames Hname _|allowed Hallowed _
          |p str regex Hp _ _ _|elems m _ Hm _|elems m _ Hm _].
  - by apply worded_type.
  - by eapply worded_missing.
  - by apply worded_enum.
  - by apply worded_pattern.
  - by apply worded_minItems.
  - by apply worded_maxItems.
Qed.

(** C3: every error [validateSchema] returns has the wording of its kind,
    ["{path}: Missing required field '{name}'"], ["{path}: Value '{v}' is
    not in allowed enum: {list}"] (the values joined by comma-space),
    ["{path}: Value '{v}' does not match pattern {p}"], ["{path}: Array has
    {n} items, minimum is {m}"], or that of a type or [maxItems] error, with
    the name, the list, the pattern and the bound of the schema node the
    dotted/bracketed path leads to.  When the schema names no member of
    [Object.prototype], that path is the position of the offending node in
    the data tree, and the violation is that node's: the field is missing
    from it, its value is the [{v}] that is outside the enum or does not
    match, its length is the [{n}] that breaks the bound. *)
Theorem reported_errors_wording sch data root errors e :
  validateSchema data sch root = Return errors → e ∈ errors →
  (∃ position s,
     schema_at sch position s ∧ worded s (path_at root position) e)
  ∧ (plain_names sch →
     ∃ position d s,
       node_at data sch position d s ∧ reported_at d s (path_at root position) e).
Proof.
  intros Hrun He.
  destruct (reported_errors_located sch data root errors e Hrun He)
    as (position & d & s & Hnode & Hreported).
  split.
  - exists position, s. split.
    + by eapply node_at_schema_at.
    + by eapply reported_at_worded.
  - intros _. by exists position, d, s.
Qed.

End Messages.

(** ** Validity *)

Section Validity.
Context `{host : JsHost}.
Implicit Types (data v : value) (sch sub it : schema) (path : string)
  (fields : gmap string value).

Lemma includes_spec allowed data :
  includes allowed data = true ↔ ∃ x, x ∈ allowed ∧ sameValueZero x data = true.
Proof.
  unfold includes. induction allowed as [|y allowed IH]; simpl.
  - split; [done|]. by intros (x & ?%elem_of_nil & _).
  - rewrite orb_true_iff, IH. split.
    + intros [Hy|(x & Hx & Hsame)]; [exists y|exists x]; split; try done; by constructor.
    + intros (x & [->|Hx]%elem_of_cons & Hsame); [by left|right; by exists x].
Qed.

Lemma check_enum_nil path data enum :
  check_enum path data enum = [] ↔ enum_ok enum data.
Proof.
  unfold check_enum, enum_ok. destruct enum as [allowed|]; [|done].
  destruct (includes allowed data) eqn:Hincludes.
  - split; [|done]. intros _ ? [= <-]. by apply includes_spec.
  - split; [done|]. intros Hok. specialize (Hok allowed eq_refl).
    apply includes_spec in Hok. congruence.
Qed.

Lemma check_pattern_nil path data pattern :
  check_pattern path data pattern = Return [] ↔ pattern_ok pattern data.
Proof.
  unfold check_pattern, pattern_ok, matches.
  destruct pattern as [p|]; [|done].
  destruct data as [| | | |s| |]; try done.
  unfold str_truthy. destruct (decide (p = "")) as [->|Hp].
  - rewrite bool_decide_eq_true_2 by done. simpl. split; [|done].
    intros _ ? ? [= <-] [= <-]. apply RegExp_empty.
  - rewrite bool_decide_eq_false_2 by done. simpl.
    destruct (RegExp_new p) as [regex|] eqn:Hregex.
    + destruct (RegExp_test regex s) eqn:Htest.
      * split; [|done]. intros _ ? ? [= <-] [= <-]. by exists regex.
      * split; [done|]. intros Hok.
        destruct (Hok p s eq_refl eq_refl) as (regex' & Hregex' & Htest'). congruence.
    + split; [done|]. intros Hok.
      destruct (Hok p s eq_refl eq_refl) as (regex' & Hregex' & Htest'). congruence.
Qed.

Lemma check_minItems_nil path len min :
  check_minItems path len min = [] ↔ ∀ m : nat, min = Some m → (m ≤ len)%nat.
Proof.
  unfold check_minItems, nat_truthy. destruct min as [m|]; simpl; [|done].
  destruct (decide (m = 0)) as [->|Hm].
  - rewrite bool_decide_eq_true_2 by done. simpl. split; [|done].
    intros _ ? [= <-]. lia.
  - rewrite bool_decide_eq_false_2 by done. simpl. case_bool_decide.
    + split; [done|]. intros Hok. specialize (Hok m eq_refl). lia.
    + split; [|done]. intros _ ? [= <-]. lia.
Qed.

Lemma check_maxItems_nil path len max :
  max ≠ Some 0 →
  check_maxItems path len max = [] ↔ ∀ m : nat, max = Some m → (len ≤ m)%nat.
Proof.
  unfold check_maxItems, nat_truthy. destruct max as [m|]; simpl; [|done].
  intros Hmax. rewrite bool_decide_eq_false_2 by congruence. simpl. case_bool_decide.
  - split; [done|]. intros Hok. specialize (Hok m eq_refl). lia.
  - split; [|done]. intros _ ? [= <-]. lia.
Qed.

Lemma type_mismatch_spec ty data :
  type_mismatch ty data = false ↔ type_ok ty data.
Proof.
  unfold type_ok. split.
  - intros Htype t -> Hty.
    destruct (decide (typeOf data = t)) as [|Hdiff]; [by left|right].
    destruct (decide (t = "number")) as [->|Hnum].
    + split; [done|]. destruct (numeric_string data) eqn:Hnumeric; [done|].
      exfalso. revert Htype. unfold type_mismatch, lenient, type_differs, type_is.
      rewrite Hnumeric, andb_false_r. simpl.
      destruct data; simpl in *; done.
    + exfalso. revert Htype. unfold type_mismatch, lenient, type_differs, type_is.
      rewrite (bool_decide_eq_false_2 (Some t = Some "number")) by congruence. simpl.
      rewrite bool_decide_eq_false_2 by congruence. simpl.
      by rewrite bool_decide_eq_false_2 by congruence.
  - intros Hok. destruct (type_mismatch ty data) eqn:Htype; [|done].
    pose proof Htype as (t & -> & Ht & Hdiff)%type_mismatch_declared.
    destruct (Hok t eq_refl Ht) as [|[-> Hnumeric]]; [done|].
    revert Htype. unfold type_mismatch, lenient, type_is. rewrite Hnumeric.
    destruct data; simpl in *; try done.
Qed.

Lemma primitive_not_object data fields : primitive data → data ≠ VObj fields.
Proof. by intros [Hobj _] ->. Qed.
Lemma primitive_not_array data elems : primitive data → data ≠ VArr elems.
Proof. by intros [_ Harr] ->. Qed.

Lemma satisfies_inv data ty enum pattern required properties minItems maxItems items :
  satisfies data (Schema ty enum pattern required properties minItems maxItems items) →
  type_ok ty data
  ∧ (primitive data → enum_ok enum data)
  ∧ pattern_ok pattern data
  ∧ required_ok required data
  ∧ bounds_ok minItems maxItems data
  ∧ (∀ props fields, properties = Some props → data = VObj fields →
       Forall (λ entry : string * schema,
                 ∀ v, fields !! entry.1 = Some v → v ≠ VUndefined →
                      satisfies v entry.2) props)
  ∧ (∀ it elems, items = Some it → data = VArr elems →
       Forall (λ v, satisfies v it) elems).
Proof. inversion 1; subst. done. Qed.

Lemma is_undefined_spec v : is_undefined v = true ↔ v = VUndefined.
Proof. by destruct v. Qed.

(** A primitive value is valid exactly when it has the type, is listed by
    the enum and matches the pattern. *)
Lemma valid_primitive data sch path :
  primitive data →
  validateSchema data sch path = Return [] ↔ satisfies data sch.
Proof.
  intros Hprim.
  destruct sch as [ty enum pattern required properties minItems maxItems items].
  set (sch := Schema ty enum pattern required properties minItems maxItems items).
  destruct (type_mismatch ty data) eqn:Htype.
  { rewrite (validateSchema_mismatch data sch) by done. split; [done|].
    intros (Htype_ok & _)%satisfies_inv.
    apply type_mismatch_spec in Htype_ok. congruence. }
  rewrite (validateSchema_primitive data sch) by done. simpl. split.
  - destruct (check_pattern path data pattern) as [pattern_errors|] eqn:Hpattern;
      simpl; [|done].
    intros [= [Henum ->]%app_eq_nil].
    constructor.
    + by apply type_mismatch_spec.
    + intros _. by apply (check_enum_nil path).
    + by apply (check_pattern_nil path).
    + intros names fields _ Hdata. by apply primitive_not_object in Hdata.
    + intros elems Hdata. by apply primitive_not_array in Hdata.
    + intros props fields _ Hdata. by apply primitive_not_object in Hdata.
    + intros it elems _ Hdata. by apply primitive_not_array in Hdata.
  - intros (_ & Henum & Hpattern & _)%satisfies_inv.
    apply (check_pattern_nil path) in Hpattern. rewrite Hpattern. simpl.
    apply (check_enum_nil path) in Henum; [|done]. by rewrite Henum.
Qed.

(** An object is valid exactly when its required fields are present and
    its declared properties, where present, are valid. *)
Lemma valid_object fields sch path :
  (is_Some (s_required sch) → is_Some (s_properties sch)) →
  (∀ name sub v path',
     (name, sub) ∈ default [] (s_properties sch) → fields !! name = Some v →
     validateSchema v sub path' = Return [] ↔ satisfies v sub) →
  validateSchema (VObj fields) sch path = Return [] ↔ satisfies (VObj fields) sch.
Proof.
  intros Hreq IH.
  destruct sch as [ty enum pattern required properties minItems maxItems items].
  simpl in Hreq, IH.
  set (sch := Schema ty enum pattern required properties minItems maxItems items).
  destruct (type_mismatch ty (VObj fields)) eqn:Htype.
  { rewrite (validateSchema_mismatch (VObj fields) sch) by done. split; [done|].
    intros (Htype_ok & _)%satisfies_inv.
    apply type_mismatch_spec in Htype_ok. congruence. }
  rewrite (validateSchema_object fields sch) by done. simpl.
  assert (∀ P : Prop, primitive (VObj fields) → P) as Hnot_primitive.
  { by intros P [Hobj _]. }
  destruct properties as [props|]; simpl in IH.
  - rewrite check_required_object. simpl. split.
    + destruct (collect _) as [prop_errors|] eqn:Hcollect; simpl; [|done].
      intros [= [Hrequired ->]%app_eq_nil].
      apply fmap_nil_inv in Hrequired.
      apply collect_Return_nil, Forall_fmap in Hcollect.
      constructor.
      * by apply type_mismatch_spec.
      * apply Hnot_primitive.
      * by intros p s _ [=].
      * intros names fields' -> [= <-] name Hname.
        destruct (fields !! name) as [v|] eqn:Hv; [by eexists|].
        assert (name ∈ filter (λ name, fields !! name = None) names) as Hin.
        { by apply list_elem_of_filter. }
        simpl in Hrequired. rewrite Hrequired in Hin. by apply elem_of_nil in Hin.
      * by intros elems [=].
      * intros props' fields' [= <-] [= <-].
        apply Forall_forall. intros [name sub] Hentry v Hv Hdefined. simpl in *.
        pose proof (proj1 (Forall_forall _ _) Hcollect _ Hentry) as Hcall.
        unfold compose in Hcall. rewrite validate_property_object, Hv in Hcall.
        destruct (is_undefined v) eqn:Hundefined;
          [by apply is_undefined_spec in Hundefined|].
        by apply (IH name sub v (path +:+ "." +:+ name)).
      * by intros it elems _ [=].
    + intros (_ & _ & _ & Hrequired & _ & Hprops & _)%satisfies_inv.
      assert (filter (λ name, fields !! name = None) (default [] required) = [])
        as ->.
      { destruct required as [names|]; [|done]. simpl.
        destruct (filter _ names) as [|name rest] eqn:Hfilter; [done|].
        assert (name ∈ filter (λ name, fields !! name = None) names) as Hin.
        { rewrite Hfilter. by left. }
        apply list_elem_of_filter in Hin as [Hmissing Hname].
        destruct (Hrequired names fields eq_refl eq_refl name Hname). congruence. }
      simpl.
      rewrite (proj2 (collect_Return_nil _)); [done|].
      apply Forall_fmap, Forall_forall. intros [name sub] Hentry.
      unfold compose. rewrite validate_property_object.
      destruct (fields !! name) as [v|] eqn:Hv; [|done].
      destruct (is_undefined v) eqn:Hundefined; [done|].
      apply (IH name sub v); [done..|].
      pose proof (proj1 (Forall_forall _ _) (Hprops props fields eq_refl eq_refl)
                    _ Hentry) as Hsub.
      apply Hsub; [done|]. intros ->. done.
  - split; [|done]. intros _. constructor.
    + by apply type_mismatch_spec.
    + apply Hnot_primitive.
    + by intros p s _ [=].
    + intros names fields' -> _. by destruct Hreq.
    + by intros elems [=].
    + by intros props fields' [=].
    + by intros it elems _ [=].
Qed.

(** An array is valid exactly when its length is within the bounds and its
    elements are valid. *)
Lemma valid_array elems sch path :
  s_maxItems sch ≠ Some 0 →
  (∀ it v path', s_items sch = Some it → v ∈ elems →
     validateSchema v it path' = Return [] ↔ satisfies v it) →
  validateSchema (VArr elems) sch path = Return [] ↔ satisfies (VArr elems) sch.
Proof.
  intros Hmax IH.
  destruct sch as [ty enum pattern required properties minItems maxItems items].
  simpl in Hmax, IH.
  set (sch := Schema ty enum pattern required properties minItems maxItems items).
  destruct (type_mismatch ty (VArr elems)) eqn:Htype.
  { rewrite (validateSchema_mismatch (VArr elems) sch) by done. split; [done|].
    intros (Htype_ok & _)%satisfies_inv.
    apply type_mismatch_spec in Htype_ok. congruence. }
  rewrite (validateSchema_array elems sch) by done. simpl.
  assert (∀ P : Prop, primitive (VArr elems) → P) as Hnot_primitive.
  { by intros P [_ Harr]. }
  split.
  - intros Hrun.
    assert (check_minItems path (length elems) minItems = []
            ∧ check_maxItems path (length elems) maxItems = []
            ∧ ∀ it, items = Some it →
                forEach_indexed (validate_item it path) elems = Return [])
      as (Hmin & Hmaximum & Hitems).
    { destruct items as [it|].
      - destruct (forEach_indexed _ _) as [item_errors|] eqn:Heach; simpl in Hrun;
          [|done].
        injection Hrun as [Hmin [Hmaximum ->]%app_eq_nil]%app_eq_nil.
        repeat split; try done. by intros ? [= <-].
      - simpl in Hrun. injection Hrun as [Hmin [Hmaximum _]%app_eq_nil]%app_eq_nil.
        done. }
    constructor.
    + by apply type_mismatch_spec.
    + apply Hnot_primitive.
    + by intros p s _ [=].
    + by intros names fields _ [=].
    + intros elems' [= <-]. split.
      * by apply (check_minItems_nil path).
      * by apply (check_maxItems_nil path).
    + by intros props fields _ [=].
    + intros it elems' -> [= <-].
      specialize (Hitems it eq_refl). unfold forEach_indexed in Hitems.
      apply collect_Return_nil in Hitems.
      apply Forall_lookup. intros i v Hv.
      apply (IH it v (path +:+ "[" +:+ nat_toString i +:+ "]")); [done| |].
      { by eapply list_elem_of_lookup_2. }
      apply (proj1 (Forall_lookup _ _) Hitems i).
      apply list_lookup_imap_Some. by exists v.
  - intros (_ & _ & _ & _ & Hbounds & _ & Hitems)%satisfies_inv.
    destruct (Hbounds elems eq_refl) as [Hmin Hmaximum].
    apply (check_minItems_nil path) in Hmin.
    apply (check_maxItems_nil path) in Hmaximum; [|done].
    rewrite Hmin, Hmaximum.
    destruct items as [it|]; [|done]. unfold forEach_indexed.
    rewrite (proj2 (collect_Return_nil _)); [done|].
    apply Forall_lookup. intros i c (v & Hv & ->)%list_lookup_imap_Some.
    apply (IH it v); [done| |].
    { by eapply list_elem_of_lookup_2. }
    apply (proj1 (Forall_lookup _ _) (Hitems it elems eq_refl eq_refl) i v Hv).
Qed.

(** A value of another type than the declared one is neither valid nor
    satisfying. *)
Lemma valid_mismatch data sch path :
  type_mismatch (s_type sch) data = true →
  validateSchema data sch path = Return [] ↔ satisfies data sch.
Proof.
  intros Htype. rewrite validateSchema_mismatch by done. split; [done|].
  destruct sch as [ty enum pattern required properties minItems maxItems items].
  intros (Htype_ok & _)%satisfies_inv.
  apply type_mismatch_spec in Htype_ok. simpl in Htype. congruence.
Qed.

(** [null] where an object may stand and no property or required field is
    declared: nothing is looked up in it, and it is valid. *)
Lemma valid_null sch path :
  type_mismatch (s_type sch) VNull = false →
  default [] (s_properties sch) = [] → default [] (s_required sch) = [] →
  validateSchema VNull sch path = Return [] ↔ satisfies VNull sch.
Proof.
  intros Htype Hprops Hrequired. rewrite validateSchema_null by done.
  destruct sch as [ty enum pattern required properties minItems maxItems items].
  simpl in *.
  assert (satisfies VNull
            (Schema ty enum pattern required properties minItems maxItems items))
    as Hsat.
  { constructor; try done.
    - by apply type_mismatch_spec.
    - by intros [Hobj _]. }
  split; [done|]. intros _.
  destruct properties as [props|]; [|done]. simpl in Hprops. subst props.
  destruct required as [names|]; [|done]. simpl in Hrequired. by subst names.
Qed.

(** Where no [null] is validated at a node that declares properties,
    [null_safe] holds. *)
Lemma null_free_null_safe sch data : null_free data → null_safe data sch.
Proof.
  revert data.
  induction sch as [ty enum pattern required properties minItems maxItems items
                      IHprops IHitems] using schema_tree_ind.
  intros data Hfree. constructor.
  - intros ->. inversion Hfree.
  - intros fields props name sub v -> _ Hprops Hentry Hv. simpl in Hprops. subst.
    simpl in IHprops.
    apply (proj1 (Forall_forall _ _) IHprops _ Hentry).
    inversion Hfree as [| | | | |? Hfields]; subst. by eapply Hfields.
  - intros elems it v -> _ Hit Hv. simpl in Hit. subst. simpl in IHitems.
    apply IHitems. inversion Hfree as [| | | |? Helems|]; subst.
    by apply (proj1 (Forall_forall _ _) Helems).
Qed.

(** C1, on the inputs for which it holds.  The schema is well formed
    ([required] comes with [properties], no [maxItems] is [0]) and names no
    member of [Object.prototype]; no [null] is validated at a node that
    declares a property or a required field.  A value satisfies a schema
    when, at every level: it has the declared type ([null] counting as an
    object, a numeric string as a number); if it is neither an object nor an
    array, it is listed by the declared enum (an object or an array is not
    held against an enum); if it is a string, it matches the declared
    pattern (no other value is held against a pattern); if it is an object,
    the required fields are present and the declared properties that are
    present and not [undefined] satisfy their schemas; if it is an array,
    its length is within the bounds and its elements satisfy the item
    schema.  Then [validateSchema] returns the empty list exactly when the
    value satisfies the schema. *)
Theorem valid_iff_satisfies sch data path :
  well_formed sch → plain_names sch → null_safe data sch →
  validateSchema data sch path = Return [] ↔ satisfies data sch.
Proof.
  revert data path.
  induction sch as [ty enum pattern required properties minItems maxItems items
                      IHprops IHitems] using schema_tree_ind.
  intros data path Hwf Hplain Hsafe.
  destruct (type_mismatch ty data) eqn:Htype; [by apply valid_mismatch|].
  inversion Hwf as [? ? ? ? ? ? ? ? Hmax Hreq Hwfprops Hwfitems]; subst.
  inversion Hplain as [? ? ? ? ? ? ? ? _ Hplainprops Hplainitems]; subst.
  inversion Hsafe as [? ? Hnull Hfields Helems]; subst.
  cbn [s_type s_properties s_required s_items] in Hnull, Hfields, Helems.
  destruct data as [| |b|n|s|elems|fields].
  - by apply valid_primitive.
  - destruct (Hnull eq_refl Htype) as [Hprops Hrequired]. by apply valid_null.
  - by apply valid_primitive.
  - by apply valid_primitive.
  - by apply valid_primitive.
  - apply valid_array; [done..|]. simpl. intros it v path' -> Hv.
    simpl in IHitems. apply IHitems.
    + by apply Hwfitems.
    + by apply Hplainitems.
    + by eapply Helems.
  - apply valid_object; [done..|]. simpl. intros name sub v path' Hentry Hv.
    destruct properties as [props|]; [|by apply elem_of_nil in Hentry].
    simpl in *.
    apply (proj1 (Forall_forall _ _) IHprops _ Hentry).
    + apply (proj1 (Forall_forall _ _) (Hwfprops props eq_refl) _ Hentry).
    + apply (proj1 (Forall_forall _ _) (Hplainprops props eq_refl) _ Hentry).
    + by eapply Hfields.
Qed.

End Validity.

(** *** When the call returns *)

Section Returns.
Context `{host : JsHost}.

Lemma collect_returns {A} (cs : list (completion (list A))) :
  Forall (λ c, ∃ xs, c = Return xs) cs → ∃ xs, collect cs = Return xs.
Proof.
  induction 1 as [|c cs [xs ->] _ [ys IH]]; simpl; [by eexists|].
  rewrite IH. simpl. by eexists.
Qed.

(** On a value without [null], under a schema whose patterns compile,
    [validateSchema] returns an error list: the exceptions of the validator
    come from [null] and from rejected patterns only. *)
Lemma validateSchema_returns sch data path :
  patterns_compile sch → null_free data →
  ∃ errors, validateSchema data sch path = Return errors.
Proof.
  revert data path.
  induction sch as [ty enum pattern required properties minItems maxItems items
                      IHprops IHitems] using schema_tree_ind.
  intros data path Hcompile Hnull.
  inversion Hcompile as [? ? ? ? ? ? ? ? Hpattern Hprops Hitems]; subst.
  set (sch := Schema ty enum pattern required properties minItems maxItems items).
  destruct (type_mismatch ty data) eqn:Htype.
  { rewrite (validateSchema_mismatch data sch) by done. by eexists. }
  assert (primitive data → ∃ errors, validateSchema data sch path = Return errors)
    as Hprimitive.
  { intros Hprim. rewrite (validateSchema_primitive data sch) by done. simpl.
    assert (∃ es, check_pattern path data pattern = Return es) as [es ->];
      [|by eexists].
    unfold check_pattern. destruct pattern as [p|]; [|by eexists].
    destruct data; try by eexists.
    unfold str_truthy. case_bool_decide as Hp; simpl; [by eexists|].
    destruct (Hpattern p eq_refl Hp) as [regex ->]. by eexists. }
  destruct data as [| |b|n|s|elems|fields]; try (by apply Hprimitive).
  - inversion Hnull.
  - rewrite (validateSchema_array elems sch) by done. simpl.
    destruct items as [it|]; [|by eexists]. unfold forEach_indexed.
    destruct (collect_returns (imap (λ index item, validate_item it path item index)
                                 elems)) as [item_errors ->]; [|by eexists].
    apply Forall_lookup. intros i c (v & Hv & ->)%list_lookup_imap_Some.
    apply IHitems; [by apply Hitems|].
    inversion Hnull as [| | | |? Helems|]; subst.
    by apply (proj1 (Forall_lookup _ _) Helems i).
  - rewrite (validateSchema_object fields sch) by done. simpl.
    destruct properties as [props|]; [|by eexists].
    rewrite check_required_object. simpl.
    destruct (collect_returns (map (validate_property (VObj fields) path) props))
      as [prop_errors ->]; [|by eexists].
    apply Forall_fmap, Forall_forall. intros [name sub] Hentry.
    unfold compose. rewrite validate_property_object.
    destruct (fields !! name) as [v|] eqn:Hv; [|by eexists].
    destruct (is_undefined v); [by eexists|].
    apply (proj1 (Forall_forall _ _) IHprops _ Hentry).
    + apply (proj1 (Forall_forall _ _) (Hprops props eq_refl) _ Hentry).
    + inversion Hnull as [| | | | |? Hfields]; subst. by eapply Hfields.
Qed.

End Returns.

(** *** Inputs on which validity and the empty result part ways *)

Section Boundaries.
Context `{host : JsHost}.

(** [required] without [properties] is not enforced. *)
Lemma required_needs_properties :
  let sch := Schema (Some "object") None None (Some ["Version"]) None None None None in
  validateSchema (VObj ∅) sch "root" = Return [] ∧ ¬ satisfies (VObj ∅) sch.
Proof.
  split; [reflexivity|].
  intros (_ & _ & _ & Hrequired & _)%satisfies_inv.
  destruct (Hrequired ["Version"] ∅ eq_refl eq_refl "Version") as [v Hv].
  - by left.
  - by rewrite lookup_empty in Hv.
Qed.

(** A [maxItems] of [0] is not enforced. *)
Lemma maxItems_zero_unchecked :
  let sch := Schema (Some "array") None None None None None (Some 0) None in
  validateSchema (VArr [VStr "x"]) sch "root" = Return []
  ∧ ¬ satisfies (VArr [VStr "x"]) sch.
Proof.
  split; [reflexivity|].
  intros (_ & _ & _ & _ & Hbounds & _)%satisfies_inv.
  destruct (Hbounds [VStr "x"] eq_refl) as [_ Hmax].
  specialize (Hmax 0 eq_refl). simpl in Hmax. lia.
Qed.

(** An enum declared on an array node is never consulted: the enum check
    sits in the branch of the values that are neither objects nor arrays. *)
Lemma enum_skipped_on_arrays :
  let sch := Schema (Some "array") (Some [VStr "a"]) None None None None None None in
  validateSchema (VArr [VStr "zzz"]) sch "root" = Return []
  ∧ satisfies (VArr [VStr "zzz"]) sch.
Proof.
  split; [reflexivity|].
  constructor.
  - intros t [= <-] _. by left.
  - by intros [_ Harr].
  - by intros p s _ [=].
  - by intros names fields _ [=].
  - intros elems _. split; by intros m [=].
  - by intros props fields [=].
  - by intros it elems [=].
Qed.

(** [null] has the runtime category of an object and meets every constraint
    of this schema, but the call raises instead of returning. *)
Lemma null_satisfies_but_throws :
  let sch := Schema (Some "object") None None None (Some [("Gstin", string_node)])
               None None None in
  validateSchema VNull sch "root" = Throw (TypeError_read "Gstin")
  ∧ satisfies VNull sch.
Proof.
  split; [reflexivity|].
  constructor.
  - intros t [= <-] _. by left.
  - by intros [Hobj _].
  - by intros p s [=].
  - by intros names fields [=].
  - by intros elems [=].
  - by intros props fields _ [=].
  - by intros it elems [=].
Qed.

(** C2 fails on [null]: under [INVOICE_SCHEMA] the invoice
    [{ "TranDtls": null }] makes [validateSchema] raise a [TypeError] at
    ['SupTyp' in data]; no error list is returned. *)
Theorem validateSchema_throws_on_null :
  validateSchema (VObj {[ "TranDtls" := VNull ]}) INVOICE_SCHEMA "root"
  = Throw (TypeError_in "SupTyp").
Proof. vm_compute. reflexivity. Qed.

End Boundaries.

(** C1 as stated fails: the object [{}] violates the required field
    [Version] of [{ type: "object", required: ["Version"] }], and
    [validateSchema] returns the empty list for it. *)
Lemma empty_result_without_validity :
  validateSchema (host := literal_host) (VObj ∅)
    (Schema (Some "object") None None (Some ["Version"]) None None None None) "root"
  = Return []
  ∧ ¬ satisfies (host := literal_host) (VObj ∅)
        (Schema (Some "object") None None (Some ["Version"]) None None None None).
Proof. exact (required_needs_properties (host := literal_host)). Qed.

(** ** The XML validation route *)

Section Route.
Context `{host : JsHost}.
Variable xml2js : string → completion value.
Variable message : js_error → string.
Implicit Types (fields itemList : gmap string value) (errors : list string).

Lemma install_ItemList_Item fields itemList item :
  fields !! "ItemList" = Some (VObj itemList) →
  itemList !! "Item" = Some item → truthy item = true →
  install_ItemList (VObj fields)
  = Return (VObj (<["ItemList" := if isArray item then item else VArr [item]]> fields)).
Proof.
  intros HItemList HItem Htruthy. unfold install_ItemList. simpl.
  rewrite HItemList. simpl. rewrite HItem. simpl. rewrite Htruthy.
  by destruct (isArray item).
Qed.

(** An array of one element under [ItemList_schema]: neither bound is
    violated, and what remains are the errors of the element. *)
Lemma validateSchema_one_Item item path :
  validateSchema (VArr [item]) ItemList_schema path
  = validateSchema item Item_schema (path +:+ "[0]").
Proof.
  rewrite validateSchema_array by reflexivity.
  change (s_items ItemList_schema) with (Some Item_schema).
  change (check_minItems path (length [item]) (s_minItems ItemList_schema))
    with (@nil string).
  change (check_maxItems path (length [item]) (s_maxItems ItemList_schema))
    with (@nil string).
  unfold forEach_indexed, validate_item. cbn [imap collect].
  change (path +:+ "[" +:+ nat_toString 0 +:+ "]") with (path +:+ "[0]").
  destruct (validateSchema item Item_schema (path +:+ "[0]")) as [item_errors|];
    simpl; [|done].
  by rewrite app_nil_r.
Qed.

(** C10: when the normalized invoice holds [ItemList: { Item: o }] with a
    single object [o], the value handed to [validateSchema] holds
    [ItemList: [o]], and an [Item] that is already an array becomes the
    [ItemList] as it is.  The one-element array meets the [minItems] bound
    of [1] in [INVOICE_SCHEMA]: validating it yields the errors of [o] and
    nothing more. *)
Theorem ItemList_Item_installed_as_array fields itemList item :
  fields !! "ItemList" = Some (VObj itemList) →
  itemList !! "Item" = Some item →
  (∀ o, item = VObj o →
     install_ItemList (VObj fields)
     = Return (VObj (<["ItemList" := VArr [VObj o]]> fields))
     ∧ ("ItemList", ItemList_schema) ∈ default [] (s_properties INVOICE_SCHEMA)
     ∧ s_minItems ItemList_schema = Some 1
     ∧ check_minItems "root.ItemList" (length [VObj o]) (s_minItems ItemList_schema) = []
     ∧ validateSchema (VArr [VObj o]) ItemList_schema "root.ItemList"
       = validateSchema (VObj o) Item_schema "root.ItemList[0]")
  ∧ (∀ elems, item = VArr elems →
       install_ItemList (VObj fields)
       = Return (VObj (<["ItemList" := VArr elems]> fields))).
Proof.
  intros HItemList HItem. split.
  - intros o ->. split; [by apply (install_ItemList_Item fields itemList (VObj o))|].
    split; [|split; [done|split; [done|]]].
    + unfold INVOICE_SCHEMA, object_node. simpl.
      do 5 apply list_elem_of_further. apply list_elem_of_here.
    + apply (validateSchema_one_Item (VObj o) "root.ItemList").
  - intros elems ->. by apply (install_ItemList_Item fields itemList (VArr elems)).
Qed.

Lemma occurs_in_body_validation_failed errors :
  occurs_in "<Valid>false</Valid>" (body_validation_failed errors).
Proof.
  exists (line 17 "<ValidationResponse>" +:+ line 20 ""),
         (line 20 "<Message>Validation Failed</Message>"
          +:+ line 20 "<Errors>"
          +:+ line 24 (errorTags errors)
          +:+ line 17 "</ValidationResponse>"
          +:+ line 13 "").
  reflexivity.
Qed.

(** C7: a request whose body parses to a document with an [Invoice] root
    that fails schema validation is answered with status 200; the failure
    shows only in the body, which carries [<Valid>false</Valid>]. *)
Theorem schema_invalid_xml_answered_200 text result invoice cleanData errors :
  text ≠ "" →
  xml2js text = Return result →
  js_get result "Invoice" = Return invoice → truthy invoice = true →
  install_ItemList (normalize invoice) = Return cleanData →
  validateSchema cleanData INVOICE_SCHEMA "root" = Return errors →
  errors ≠ [] →
  status (post_validate xml2js message (VStr text)) = 200
  ∧ body (post_validate xml2js message (VStr text)) = body_validation_failed errors
  ∧ occurs_in "<Valid>false</Valid>" (body (post_validate xml2js message (VStr text))).
Proof.
  intros Htext Hparse HInvoice Htruthy Hinstall Hvalidate Herrors.
  assert (post_validate xml2js message (VStr text)
          = xml_response 200 (body_validation_failed errors)) as ->.
  { unfold post_validate, validate_request. cbn [truthy].
    rewrite bool_decide_eq_false_2 by done. cbn [negb].
    rewrite Hparse. cbn [mbind completion_bind]. unfold validate_parsed.
    rewrite HInvoice. cbn [mbind completion_bind]. rewrite Htruthy. cbn [negb].
    rewrite Hinstall. cbn [mbind completion_bind]. unfold validate.
    rewrite Hvalidate. cbn [mbind completion_bind].
    rewrite bool_decide_eq_true_2; [done|]. destruct errors; [done|simpl; lia]. }
  split; [done|]. split; [done|]. apply occurs_in_body_validation_failed.
Qed.

End Route.

(** C8 fails on a schema-invalid document: the body sent for the sample
    document opens [<Errors>] and never closes it, so it is not well nested,
    while the bodies of the other responses are. *)
Theorem failed_validation_body_not_well_nested :
  post_validate sample_xml2js sample_message (VStr sample_xml)
  = xml_response 200 (body_validation_failed sample_errors)
  ∧ well_nested (body (post_validate sample_xml2js sample_message (VStr sample_xml)))
    = false
  ∧ well_nested body_empty_payload = true
  ∧ well_nested body_wrong_root = true
  ∧ well_nested body_valid = true.
Proof. vm_compute. done. Qed.

Lemma schema_invalid_xml_answered_200_witness :
  status (post_validate sample_xml2js sample_message (VStr sample_xml)) = 200
  ∧ body (post_validate sample_xml2js sample_message (VStr sample_xml))
    = body_validation_failed sample_errors
  ∧ occurs_in "<Valid>false</Valid>"
      (body (post_validate sample_xml2js sample_message (VStr sample_xml))).
Proof.
  apply (schema_invalid_xml_answered_200 (host := literal_host)
           sample_xml2js sample_message sample_xml sample_parsed
           (VObj {[ "TranDtls" := VObj {[ "SupTyp" := VObj {[ "_text" := VStr "B2B" ]} ]} ]})
           sample_invoice sample_errors).
  - discriminate.
  - reflexivity.
  - reflexivity.
  - reflexivity.
  - vm_compute. reflexivity.
  - vm_compute. reflexivity.
  - discriminate.
Defined.

Lemma ItemList_Item_installed_as_array_witness :
  let o : gmap string (value (host := literal_host)) := {[ "SlNo" := VStr "1" ]} in
  let fields : gmap string (value (host := literal_host)) :=
    {[ "ItemList" := VObj {[ "Item" := VObj o ]} ]} in
  install_ItemList (VObj fields) = Return (VObj (<["ItemList" := VArr [VObj o]]> fields))
  ∧ validateSchema (VArr [VObj o]) ItemList_schema "root.ItemList"
    = validateSchema (VObj o) Item_schema "root.ItemList[0]".
Proof.
  intros o fields.
  destruct (ItemList_Item_installed_as_array (host := literal_host)
              fields {[ "Item" := VObj o ]} (VObj o)) as [Hsingle _].
  - reflexivity.
  - reflexivity.
  - destruct (Hsingle o eq_refl) as (Hinstall & _ & _ & _ & Hvalidate). by split.
Defined.

(** ** The invoice schema *)

Ltac prove_well_formed :=
  lazymatch goal with
  | |- well_formed _ =>
      apply well_formed_node;
      [ done
      | intros [? Hrequired]; first [discriminate Hrequired | by eexists]
      | intros ? Hproperties;
        first [ discriminate Hproperties
              | injection Hproperties as <-;
                repeat (apply List.Forall_cons; [prove_well_formed|]);
                apply List.Forall_nil ]
      | intros ? Hitems;
        first [ discriminate Hitems
              | injection Hitems as <-; prove_well_formed ] ]
  end.

(** [INVOICE_SCHEMA] is one of the schemas on which the validator enforces
    every declared constraint. *)
Lemma INVOICE_SCHEMA_well_formed `{host : JsHost} : well_formed INVOICE_SCHEMA.
Proof. prove_well_formed. Qed.

Ltac prove_own_names :=
  apply (bool_decide_unpack _); vm_compute; exact I.

Ltac prove_plain_names :=
  lazymatch goal with
  | |- plain_names _ =>
      apply plain_names_node;
      [ prove_own_names
      | intros ? Hproperties;
        first [ discriminate Hproperties
              | injection Hproperties as <-;
                repeat (apply List.Forall_cons; [prove_plain_names|]);
                apply List.Forall_nil ]
      | intros ? Hitems;
        first [ discriminate Hitems
              | injection Hitems as <-; prove_plain_names ] ]
  end.

(** [INVOICE_SCHEMA] names no member of [Object.prototype]. *)
Lemma INVOICE_SCHEMA_plain_names `{host : JsHost} : plain_names INVOICE_SCHEMA.
Proof. prove_plain_names. Qed.


Lemma valid_iff_satisfies_witness :
  let sch := object_node (host := literal_host) ["Version"] [("Version", enum_node ["1.1"])] in
  let data := VObj {[ "Version" := VStr "1.1"; "Remarks" := VNull ]} in
  validateSchema data sch "root" = Return [] ↔ satisfies data sch.
Proof.
  intros sch data.
  apply (valid_iff_satisfies (host := literal_host) sch data "root").
  - prove_well_formed.
  - prove_plain_names.
  - constructor.
    + intros [=].
    + intros fields props name sub v [= <-] _ [= <-] Hentry Hv.
      apply list_elem_of_singleton in Hentry. injection Hentry as -> ->.
      vm_compute in Hv. injection Hv as <-.
      constructor; intros; discriminate.
    + intros elems it v [=].
Defined.

Lemma reported_errors_wording_witness :
  (∃ position s,
     schema_at (host := literal_host) INVOICE_SCHEMA position s
     ∧ worded s (path_at "root" position)
         "root.TranDtls: Missing required field 'RegRev'")
  ∧ (plain_names (host := literal_host) INVOICE_SCHEMA →
     ∃ position d s,
       node_at sample_invoice INVOICE_SCHEMA position d s
       ∧ reported_at d s (path_at "root" position)
           "root.TranDtls: Missing required field 'RegRev'").
Proof.
  apply (reported_errors_wording (host := literal_host) INVOICE_SCHEMA sample_invoice
           "root" sample_errors "root.TranDtls: Missing required field 'RegRev'").
  - vm_compute. reflexivity.
  - do 6 apply list_elem_of_further. apply list_elem_of_here.
Defined.

Lemma undeclared_properties_ignored_witness :
  let sch := object_node (host := literal_host) ["Version"] [("Version", enum_node ["1.1"])] in
  validateSchema (VObj {[ "Version" := VStr "1.1"; "Remarks" := VStr "urgent" ]}) sch "root"
  = validateSchema (VObj {[ "Version" := VStr "1.1" ]}) sch "root".
Proof.
  intros sch.
  apply (undeclared_properties_ignored (host := literal_host)
           {[ "Version" := VStr "1.1"; "Remarks" := VStr "urgent" ]}
           {[ "Version" := VStr "1.1" ]} sch "root").
  - intros name ->%list_elem_of_singleton. reflexivity.
  - intros name ->%list_elem_of_singleton. reflexivity.
Defined.

(** * Further properties of the validator *)

(** ** The path is a prefix *)

Lemma string_app_assoc (a b c : string) : (a +:+ b) +:+ c = a +:+ (b +:+ c).
Proof.
  induction a as [|x a IH]; [done|].
  change (String x ((a +:+ b) +:+ c) = String x (a +:+ (b +:+ c))). by rewrite IH.
Qed.

Lemma string_app_nil_r (a : string) : a +:+ "" = a.
Proof.
  induction a as [|x a IH]; [done|].
  change (String x (a +:+ "") = String x a). by rewrite IH.
Qed.

Section Paths.
Context `{host : JsHost}.
Implicit Types (data v : value) (sch sub it : schema) (p q path : string).

(** The errors of [c], each with [p] put in front. *)
Local Abbreviation under p c := (errors ← c; mret (map (String.app p) errors)).

Lemma collect_under p (cs : list (completion (list string))) :
  collect (map (λ c, under p c) cs) = under p (collect cs).
Proof.
  induction cs as [|c cs IH]; simpl; [done|].
  rewrite IH. destruct c as [xs|]; simpl; [|done].
  destruct (collect cs) as [ys|]; simpl; [|done]. by rewrite map_app.
Qed.

Lemma check_enum_under p q data enum :
  check_enum (p +:+ q) data enum = map (String.app p) (check_enum q data enum).
Proof.
  unfold check_enum, enum_error. destruct enum as [allowed|]; [|done].
  destruct (includes allowed data); [done|]. simpl. by rewrite string_app_assoc.
Qed.

Lemma check_pattern_under p q data pattern :
  check_pattern (p +:+ q) data pattern = under p (check_pattern q data pattern).
Proof.
  unfold check_pattern, pattern_error. destruct pattern as [pat|]; [|done].
  destruct data; try done. destruct (str_truthy _); [|done].
  destruct (RegExp_new pat) as [regex|]; [|done].
  destruct (RegExp_test regex _); [done|]. simpl. by rewrite string_app_assoc.
Qed.

Lemma check_required_under p q data required :
  check_required (p +:+ q) data required = under p (check_required q data required).
Proof.
  unfold check_required. destruct required as [names|]; [|done].
  rewrite <- collect_under, map_map. f_equal. apply map_ext. intros name.
  destruct (js_in name data) as [[]|]; simpl; try done.
  unfold required_error. by rewrite string_app_assoc.
Qed.

Lemma check_minItems_under p q len min :
  check_minItems (p +:+ q) len min = map (String.app p) (check_minItems q len min).
Proof.
  unfold check_minItems, minItems_error. destruct (_ && _); [|done].
  simpl. by rewrite string_app_assoc.
Qed.

Lemma check_maxItems_under p q len max :
  check_maxItems (p +:+ q) len max = map (String.app p) (check_maxItems q len max).
Proof.
  unfold check_maxItems, maxItems_error. destruct (_ && _); [|done].
  simpl. by rewrite string_app_assoc.
Qed.

Lemma validateSchema_under sch data p q :
  validateSchema data sch (p +:+ q) = under p (validateSchema data sch q).
Proof.
  revert data p q.
  induction sch as [ty enum pattern required properties minItems maxItems items
                      IHprops IHitems] using schema_tree_ind.
  intros data p q. rewrite !validateSchema_unfold.
  destruct (type_mismatch ty data).
  { simpl. unfold type_error. by rewrite string_app_assoc. }
  destruct (negb _ && negb _).
  { rewrite check_pattern_under, check_enum_under.
    destruct (check_pattern q data pattern) as [es|]; simpl; [|done].
    by rewrite map_app. }
  assert (match properties with
          | Some props =>
              if bool_decide (typeOf data = "object") then
                required_errors ← check_required (p +:+ q) data required;
                prop_errors ← collect (map (validate_property data (p +:+ q)) props);
                mret (required_errors ++ prop_errors)
              else Return []
          | None => Return []
          end
          = under p (match properties with
                     | Some props =>
                         if bool_decide (typeOf data = "object") then
                           required_errors ← check_required q data required;
                           prop_errors ← collect (map (validate_property data q) props);
                           mret (required_errors ++ prop_errors)
                         else Return []
                     | None => Return []
                     end)) as ->.
  { destruct properties as [props|]; [|done]. simpl in IHprops.
    destruct (bool_decide _); [|done].
    rewrite check_required_under.
    assert (map (validate_property data (p +:+ q)) props
            = map (λ c, under p c) (map (validate_property data q) props)) as ->.
    { rewrite map_map. apply Forall_fmap_ext_1.
      eapply Forall_impl; [exact IHprops|]. intros [name sub] IH. simpl in *.
      destruct (js_get data name) as [v|]; simpl; [|done].
      destruct (is_undefined v); [done|].
      by rewrite <- IH, string_app_assoc. }
    rewrite collect_under.
    destruct (check_required q data required) as [rs|]; simpl; [|done].
    destruct (collect _) as [ps|]; simpl; [|done]. by rewrite map_app. }
  assert ((if bool_decide (typeOf data = "array") then
             item_errors ←
               match items with
               | Some it => forEach_indexed (validate_item it (p +:+ q)) (elems_of data)
               | None => Return []
               end;
             mret (check_minItems (p +:+ q) (length (elems_of data)) minItems
                     ++ check_maxItems (p +:+ q) (length (elems_of data)) maxItems
                     ++ item_errors)
           else Return [])
          = under p (if bool_decide (typeOf data = "array") then
                       item_errors ←
                         match items with
                         | Some it => forEach_indexed (validate_item it q) (elems_of data)
                         | None => Return []
                         end;
                       mret (check_minItems q (length (elems_of data)) minItems
                               ++ check_maxItems q (length (elems_of data)) maxItems
                               ++ item_errors)
                     else Return [])) as ->.
  { destruct (bool_decide _); [|done].
    rewrite check_minItems_under, check_maxItems_under.
    destruct items as [it|]; simpl in IHitems.
    - unfold forEach_indexed.
      assert (imap (λ index item, validate_item it (p +:+ q) item index) (elems_of data)
              = map (λ c, under p c)
                  (imap (λ index item, validate_item it q item index) (elems_of data)))
        as ->.
      { change (map ?f ?l) with (f <$> l). rewrite fmap_imap. apply imap_ext.
        intros i v _. unfold validate_item, compose.
        by rewrite <- IHitems, string_app_assoc. }
      rewrite collect_under.
      destruct (collect _) as [es|]; simpl; [|done]. by rewrite !map_app.
    - simpl. by rewrite !map_app. }
  destruct (match properties with Some _ => _ | None => _ end) as [os|]; simpl; [|done].
  destruct (if bool_decide (typeOf data = "array") then _ else _) as [as_|]; simpl;
    [|done].
  by rewrite map_app.
Qed.

(** X2: the path only labels the errors: the result for [path] is the result
    for the empty path with [path] put in front of every error, and an
    exception is the same exception. *)
Theorem path_is_prefix sch data path :
  validateSchema data sch path
  = (errors ← validateSchema data sch ""; mret (map (String.app path) errors)).
Proof. by rewrite <- validateSchema_under, string_app_nil_r. Qed.

End Paths.

(** ** The order of the errors *)

Section Order.
Context `{host : JsHost}.
Implicit Types (data v : value) (sch sub it : schema) (path : string)
  (fields : gmap string value) (errors : list string).

(** Every error starts with the path of the call that returned it. *)
Lemma errors_under_path data sch path errors :
  validateSchema data sch path = Return errors →
  Forall (λ e, ∃ rest, e = path +:+ rest) errors.
Proof.
  rewrite <- (string_app_nil_r path) at 1. rewrite validateSchema_under.
  destruct (validateSchema data sch "") as [plain|]; [|done].
  simpl. intros [= <-]. apply Forall_fmap, Forall_forall. intros rest _.
  by exists rest.
Qed.

(** C5: the errors come in traversal order.  For an object that passes the
    type check under a node with [properties] they are missing-field errors,
    for names taken from [required] in its order, followed by one group of
    errors for each declared property, in the order of [properties] (the
    order [Object.keys] gives: the order of declaration, for names that are
    not integer-like); the errors of a group start with the path of their
    property.  When the node names no member of [Object.prototype], the
    missing-field errors are those of the required names that are not in the
    object, and the group of a property is what the call on its value
    returns, and empty when the property is absent or [undefined].  For an
    array they are the [minItems] error, the [maxItems] error, then the
    errors of each element in index order. *)
Theorem errors_in_traversal_order sch path :
  (∀ fields props errors,
     type_mismatch (s_type sch) (VObj fields) = false →
     s_properties sch = Some props →
     validateSchema (VObj fields) sch path = Return errors →
     ∃ (missing : list string) (per_property : list (list string)),
       errors
       = map (λ name, path +:+ ": Missing required field '" +:+ name +:+ "'") missing
         ++ concat per_property
       ∧ missing `sublist_of` default [] (s_required sch)
       ∧ Forall2 (λ (entry : string * schema) part,
                    Forall (λ e, ∃ rest, e = (path +:+ "." +:+ entry.1) +:+ rest) part)
                 props per_property
       ∧ (own_names (node_names sch) →
          missing = filter (λ name, fields !! name = None) (default [] (s_required sch))
          ∧ Forall2 (λ (entry : string * schema) part,
                       match fields !! entry.1 with
                       | Some v =>
                           if is_undefined v then part = []
                           else validateSchema v entry.2 (path +:+ "." +:+ entry.1)
                                = Return part
                       | None => part = []
                       end) props per_property))
  ∧ (∀ elems errors,
       type_mismatch (s_type sch) (VArr elems) = false →
       validateSchema (VArr elems) sch path = Return errors →
       ∃ per_item : list (list string),
         errors
         = check_minItems path (length elems) (s_minItems sch)
           ++ check_maxItems path (length elems) (s_maxItems sch)
           ++ concat per_item
         ∧ match s_items sch with
           | Some it =>
               Forall2 (λ (indexed : nat * value) part,
                          validateSchema indexed.2 it
                            (path +:+ "[" +:+ nat_toString indexed.1 +:+ "]")
                          = Return part)
                       (imap pair elems) per_item
           | None => per_item = []
           end).
Proof.
  destruct (errors_decomposed sch path) as [Hobject Harray].
  split; [|exact Harray].
  intros fields props errors Htype Hprops Hrun.
  destruct (Hobject fields props errors Htype Hprops Hrun)
    as (per_property & -> & Hparts).
  exists (filter (λ name, fields !! name = None) (default [] (s_required sch))),
    per_property.
  split; [done|]. split; [apply sublist_filter|]. split; [|done].
  eapply Forall2_impl; [exact Hparts|].
  intros [name sub] part. simpl.
  destruct (fields !! name) as [v|]; [|by intros ->].
  destruct (is_undefined v); [by intros ->|].
  apply errors_under_path.
Qed.

End Order.

(** ** Nothing is left unreported *)

Section Completeness.
Context `{host : JsHost}.
Implicit Types (data v : value) (sch sub it : schema) (path : string)
  (fields : gmap string value) (errors : list string).

Lemma collect_Return_part {A} (cs : list (completion (list A))) (errors : list A) i c :
  collect cs = Return errors → cs !! i = Some c →
  ∃ part, c = Return part ∧ ∀ e, e ∈ part → e ∈ errors.
Proof.
  revert errors i. induction cs as [|c' cs IH]; intros errors i; [done|]. simpl.
  destruct c' as [xs|]; simpl; [|done].
  destruct (collect cs) as [ys|]; simpl; [|done].
  intros [= <-]. destruct i as [|i]; simpl.
  - intros [= <-]. exists xs. split; [done|]. intros e He. apply elem_of_app. by left.
  - intros Hc. destruct (IH ys i eq_refl Hc) as (part & -> & Hpart).
    exists part. split; [done|]. intros e He. apply elem_of_app. right. by apply Hpart.
Qed.

(** X3: every violation at a node that passes the type check is in the result:
    a required field that is missing from an object (under a node with
    [properties]; the field is not one that [Object.prototype] supplies), an
    array shorter than [minItems] or longer than a non-zero [maxItems], a
    value outside the enum, a string that does not match the (non-empty)
    pattern. *)
Theorem node_violations_reported data sch path errors :
  type_mismatch (s_type sch) data = false →
  validateSchema data sch path = Return errors →
  (∀ fields names name,
     data = VObj fields → is_Some (s_properties sch) → s_required sch = Some names →
     name ∈ names → name ∉ Object_prototype_names → fields !! name = None →
     path +:+ ": Missing required field '" +:+ name +:+ "'" ∈ errors)
  ∧ (∀ elems m,
       data = VArr elems → s_minItems sch = Some m → (length elems < m)%nat →
       path +:+ ": Array has " +:+ nat_toString (length elems)
            +:+ " items, minimum is " +:+ nat_toString m ∈ errors)
  ∧ (∀ elems m,
       data = VArr elems → s_maxItems sch = Some m → m ≠ 0 → (m < length elems)%nat →
       path +:+ ": Array has " +:+ nat_toString (length elems)
            +:+ " items, maximum is " +:+ nat_toString m ∈ errors)
  ∧ (∀ allowed,
       primitive data → s_enum sch = Some allowed → includes allowed data = false →
       path +:+ ": Value '" +:+ toString data +:+ "' is not in allowed enum: "
            +:+ join_values ", " allowed ∈ errors)
  ∧ (∀ p s regex,
       data = VStr s → s_pattern sch = Some p → p ≠ "" →
       RegExp_new p = Some regex → RegExp_test regex s = false →
       path +:+ ": Value '" +:+ s +:+ "' does not match pattern " +:+ p ∈ errors).
Proof.
  intros Htype Hrun. repeat split.
  - intros fields names name -> [props Hprops] Hnames Hname _ Hmissing.
    rewrite validateSchema_object, Hprops, check_required_object, Hnames in Hrun by done.
    simpl in Hrun. destruct (collect _) as [prop_errors|]; [|done].
    simpl in Hrun. injection Hrun as <-.
    apply elem_of_app. left.
    apply (list_elem_of_fmap_2 (required_error path)). by apply list_elem_of_filter.
  - intros elems m -> Hmin Hshort.
    rewrite validateSchema_array, Hmin in Hrun by done.
    destruct (match s_items sch with Some _ => _ | None => _ end) as [item_errors|];
      [|done].
    simpl in Hrun. injection Hrun as <-.
    apply elem_of_app. left. unfold check_minItems, nat_truthy. simpl.
    rewrite bool_decide_eq_false_2 by lia. rewrite bool_decide_eq_true_2 by done.
    by left.
  - intros elems m -> Hmax Hm Hlong.
    rewrite validateSchema_array, Hmax in Hrun by done.
    destruct (match s_items sch with Some _ => _ | None => _ end) as [item_errors|];
      [|done].
    simpl in Hrun. injection Hrun as <-.
    apply elem_of_app. right. apply elem_of_app. left.
    unfold check_maxItems, nat_truthy. simpl.
    rewrite bool_decide_eq_false_2 by done. rewrite bool_decide_eq_true_2 by done.
    by left.
  - intros allowed Hprim Henum Hout.
    rewrite validateSchema_primitive, Henum in Hrun by done.
    destruct (check_pattern _ _ _) as [pattern_errors|]; [|done].
    simpl in Hrun. injection Hrun as <-. rewrite Hout.
    apply elem_of_app. left. by left.
  - intros p s regex -> Hpattern Hp Hregex Htest.
    rewrite validateSchema_primitive, Hpattern in Hrun by (done || by split).
    unfold check_pattern, str_truthy in Hrun.
    rewrite bool_decide_eq_false_2 in Hrun by done. simpl in Hrun.
    rewrite Hregex, Htest in Hrun. simpl in Hrun. injection Hrun as <-.
    apply elem_of_app. right. by left.
Qed.

(** X4: the errors of a declared property that is present, and of every
    element of an array, are part of the result of the enclosing call. *)
Theorem nested_errors_propagate data sch path errors :
  type_mismatch (s_type sch) data = false →
  validateSchema data sch path = Return errors →
  (∀ fields props name sub v,
     data = VObj fields → s_properties sch = Some props → (name, sub) ∈ props →
     fields !! name = Some v → v ≠ VUndefined →
     ∃ part, validateSchema v sub (path +:+ "." +:+ name) = Return part
             ∧ ∀ e, e ∈ part → e ∈ errors)
  ∧ (∀ elems it i v,
       data = VArr elems → s_items sch = Some it → elems !! i = Some v →
       ∃ part, validateSchema v it (path +:+ "[" +:+ nat_toString i +:+ "]")
               = Return part
               ∧ ∀ e, e ∈ part → e ∈ errors).
Proof.
  intros Htype Hrun. split.
  - intros fields props name sub v -> Hprops Hentry Hv Hdefined.
    rewrite validateSchema_object, Hprops, check_required_object in Hrun by done.
    simpl in Hrun. destruct (collect _) as [prop_errors|] eqn:Hcollect; [|done].
    simpl in Hrun. injection Hrun as <-.
    apply list_elem_of_lookup_1 in Hentry as [i Hi].
    destruct (collect_Return_part _ _ i
                (validate_property (VObj fields) path (name, sub)) Hcollect)
      as (part & Hpart & Hsub).
    { by rewrite list_lookup_fmap, Hi. }
    rewrite validate_property_object, Hv in Hpart.
    destruct (is_undefined v) eqn:Hundefined.
    { by destruct v. }
    exists part. split; [done|]. intros e He. apply elem_of_app. right. by apply Hsub.
  - intros elems it i v -> Hit Hv.
    rewrite validateSchema_array, Hit in Hrun by done. unfold forEach_indexed in Hrun.
    destruct (collect _) as [item_errors|] eqn:Hcollect; [|done].
    simpl in Hrun. injection Hrun as <-.
    destruct (collect_Return_part _ _ i (validate_item it path v i) Hcollect)
      as (part & Hpart & Hsub).
    { apply list_lookup_imap_Some. by exists v. }
    exists part. split; [done|]. intros e He.
    apply elem_of_app. right. apply elem_of_app. right. by apply Hsub.
Qed.

End Completeness.

(** * Further properties of the XML route *)

Section Normalize.
Context `{host : JsHost}.
Implicit Types (v : value) (fields : gmap string value).

Lemma normalize_fixes v : text_free v → normalize v = v.
Proof.
  revert v. fix IH 2. intros v [| |b|n|s|elems Helems|fields Htext Hfields]; try done.
  - simpl. f_equal. apply list_eq. intros i.
    change (map normalize elems) with (normalize <$> elems). rewrite list_lookup_fmap.
    destruct (elems !! i) as [x|] eqn:Hx; [|done]. simpl. f_equal.
    apply IH. by apply (Helems i).
  - simpl.
    assert (normalize <$> fields = fields) as ->.
    { apply map_eq. intros name. rewrite lookup_fmap.
      destruct (fields !! name) as [x|] eqn:Hx; [|done]. simpl. f_equal.
      apply IH. by apply (Hfields name). }
    destruct (fields !! "_text") as [[]|]; simpl in Htext; done.
Qed.

(** X6: [normalize] returns a value without [_text] members as it is. *)
Theorem normalize_text_free v : text_free v → normalize v = v.
Proof. apply normalize_fixes. Qed.

(** [normalize] brings no [null] into a value that has none. *)
Lemma normalize_null_free v : null_free v → null_free (normalize v).
Proof.
  revert v. fix IH 2. intros v [ |b|n|s|elems Helems|fields Hfields].
  1-4: constructor.
  - simpl. constructor.
    induction Helems as [|x elems Hx _ IHelems]; simpl; constructor; [by apply IH|done].
  - assert (null_free (VObj (normalize <$> fields))) as Hmapped.
    { constructor. intros name x. rewrite lookup_fmap.
      destruct (fields !! name) as [y|] eqn:Hy; [|done]. simpl. intros [= <-].
      apply IH. by apply (Hfields name). }
    simpl. destruct (fields !! "_text") as [text|] eqn:Htext; [|done].
    destruct text; try done; by apply (Hfields "_text").
Qed.

End Normalize.

Section ItemList.
Context `{host : JsHost}.
Implicit Types (d v : value) (fields : gmap string value).

Lemma install_ItemList_cases d d' :
  install_ItemList d = Return d' →
  d' = d
  ∨ ∃ fields elems, d = VObj fields ∧ d' = VObj (<["ItemList" := VArr elems]> fields).
Proof.
  unfold install_ItemList. destruct d as [| |b|n|s|elems|fields]; simpl; try done;
    try (intros [= <-]; by left).
  destruct (fields !! "ItemList") as [itemList|]; simpl; [|intros [= <-]; by left].
  destruct (truthy itemList) eqn:HitemList; [|intros [= <-]; by left].
  destruct itemList as [| |b|n|s|elems|members]; simpl in *; try done;
    try (intros [= <-]; by left).
  destruct (members !! "Item") as [item|]; simpl; [|intros [= <-]; by left].
  destruct (truthy item); [|intros [= <-]; by left].
  destruct (isArray item) eqn:Harray; intros [= <-]; right.
  - destruct item; try done. by eexists _, _.
  - by eexists _, _.
Qed.

(** X8: the ItemList block settles in one step and touches nothing else: run on
    its own result it returns that result, and the result is of the same
    category as the input, with every member but [ItemList] unchanged. *)
Theorem install_ItemList_settles d d' :
  install_ItemList d = Return d' →
  install_ItemList d' = Return d'
  ∧ typeOf d' = typeOf d
  ∧ ∀ key, key ≠ "ItemList" → js_get d' key = js_get d key.
Proof.
  intros Hrun.
  destruct (install_ItemList_cases d d' Hrun) as [->|(fields & elems & -> & ->)];
    [done|].
  split; [|split; [done|]].
  - unfold install_ItemList. simpl. by rewrite lookup_insert_eq.
  - intros key Hkey. simpl. by rewrite lookup_insert_ne.
Qed.

Lemma install_ItemList_returns d :
  d ≠ VUndefined → d ≠ VNull →
  ∃ d', install_ItemList d = Return d' ∧ (null_free d → null_free d').
Proof.
  intros Hundefined Hnull. unfold install_ItemList.
  destruct d as [| |b|n|s|elems|fields]; simpl; try done; try by eexists.
  destruct (fields !! "ItemList") as [itemList|] eqn:HitemList; simpl; [|by eexists].
  destruct (truthy itemList) eqn:Htruthy; [|by eexists].
  destruct itemList as [| |b|n|s|elems|members]; simpl in *; try done; try by eexists.
  destruct (members !! "Item") as [item|] eqn:Hitem; simpl; [|by eexists].
  destruct (truthy item); [|by eexists].
  assert (null_free (VObj fields) → null_free item) as Hitem_free.
  { intros Hfree. inversion Hfree as [| | | | |? Hfields]; subst.
    pose proof (Hfields _ _ HitemList) as Hmembers.
    inversion Hmembers as [| | | | |? Hall]; subst. by apply (Hall "Item"). }
  assert (∀ new, (null_free (VObj fields) → null_free new) →
                 null_free (VObj fields) →
                 null_free (VObj (<["ItemList" := new]> fields))) as Hset.
  { intros new Hnew Hfree. constructor. intros name x.
    rewrite lookup_insert. case_decide.
    - intros [= <-]. by apply Hnew.
    - inversion Hfree as [| | | | |? Hfields]; subst. apply Hfields. }
  destruct (isArray item); eexists; (split; [done|]); apply Hset; [done|].
  intros Hfree. constructor. constructor; [by apply Hitem_free|constructor].
Qed.

(** The ItemList block undoes the wrapping of the sample route: from the
    [Invoice] of [xmlStructure] it gives back a sample whose [ItemList] is
    an array. *)
Lemma install_ItemList_xmlStructure fields elems :
  fields !! "ItemList" = Some (VArr elems) →
  install_ItemList
    (VObj (<["ItemList" := VObj {[ "Item" := default VUndefined (fields !! "ItemList") ]}]>
             fields))
  = Return (VObj fields).
Proof.
  intros HItemList. unfold install_ItemList. simpl.
  rewrite lookup_insert_eq. simpl. rewrite lookup_singleton_eq, HItemList. simpl.
  by rewrite insert_insert_eq, insert_id.
Qed.

End ItemList.

Section Responses.
Context `{host : JsHost}.
Variable xml2js : string → completion value.
Variable message : js_error → string.
Implicit Types (errors : list string).

Lemma occurs_in_body_empty_payload :
  occurs_in "<Valid>false</Valid>" body_empty_payload.
Proof.
  exists (line 16 "<ValidationResponse>" +:+ line 20 ""),
         (line 20 "<Errors>"
          +:+ line 24 "<Error>Empty or invalid XML payload</Error>"
          +:+ line 20 "</Errors>"
          +:+ line 16 "</ValidationResponse>"
          +:+ line 12 "").
  reflexivity.
Qed.

Lemma occurs_in_body_wrong_root :
  occurs_in "<Valid>false</Valid>" body_wrong_root.
Proof.
  exists (line 16 "<ValidationResponse>" +:+ line 20 ""),
         (line 20 "<Errors>"
          +:+ line 24 "<Error>XML root must be &lt;Invoice&gt;</Error>"
          +:+ line 20 "</Errors>"
          +:+ line 16 "</ValidationResponse>"
          +:+ line 12 "").
  reflexivity.
Qed.

Lemma occurs_in_body_invalid_format text :
  occurs_in "<Valid>false</Valid>" (body_invalid_format text).
Proof.
  exists (line 12 "<ValidationResponse>" +:+ line 16 ""),
         (line 16 "<Errors>"
          +:+ line 20 ("<Error>Invalid XML Format: " +:+ text +:+ "</Error>")
          +:+ line 16 "</Errors>"
          +:+ line 12 "</ValidationResponse>"
          +:+ line 8 "").
  reflexivity.
Qed.

Lemma occurs_in_body_valid : occurs_in "<Valid>true</Valid>" body_valid.
Proof.
  exists (line 17 "<ValidationResponse>" +:+ line 20 ""),
         (line 20 "<Message>XML is valid against the Invoice Schema</Message>"
          +:+ line 17 "</ValidationResponse>"
          +:+ line 13 "").
  reflexivity.
Qed.

(** X10: a document with an [Invoice] root that passes the schema is answered
    with status 200 and the body that carries [<Valid>true</Valid>]. *)
Theorem schema_valid_xml_answered_200 text result invoice cleanData :
  text ≠ "" →
  xml2js text = Return result →
  js_get result "Invoice" = Return invoice → truthy invoice = true →
  install_ItemList (normalize invoice) = Return cleanData →
  validateSchema cleanData INVOICE_SCHEMA "root" = Return [] →
  post_validate xml2js message (VStr text) = xml_response 200 body_valid
  ∧ occurs_in "<Valid>true</Valid>" (body (post_validate xml2js message (VStr text))).
Proof.
  intros Htext Hparse HInvoice Htruthy Hinstall Hvalidate.
  assert (post_validate xml2js message (VStr text) = xml_response 200 body_valid) as ->.
  { unfold post_validate, validate_request. cbn [truthy].
    rewrite bool_decide_eq_false_2 by done. cbn [negb].
    rewrite Hparse. cbn [mbind completion_bind]. unfold validate_parsed.
    rewrite HInvoice. cbn [mbind completion_bind]. rewrite Htruthy. cbn [negb].
    rewrite Hinstall. cbn [mbind completion_bind]. unfold validate.
    by rewrite Hvalidate. }
  split; [done|]. apply occurs_in_body_valid.
Qed.

Lemma post_validate_shape xml :
  post_validate xml2js message xml = xml_response 400 body_empty_payload
  ∨ (∃ e, post_validate xml2js message xml
          = xml_response 400 (body_invalid_format (message e)))
  ∨ post_validate xml2js message xml = xml_response 400 body_wrong_root
  ∨ ∃ text result invoice cleanData errors,
      xml = VStr text ∧ text ≠ ""
      ∧ xml2js text = Return result
      ∧ js_get result "Invoice" = Return invoice ∧ truthy invoice = true
      ∧ install_ItemList (normalize invoice) = Return cleanData
      ∧ validateSchema cleanData INVOICE_SCHEMA "root" = Return errors
      ∧ post_validate xml2js message xml
        = xml_response 200 match errors with
                           | [] => body_valid
                           | _ :: _ => body_validation_failed errors
                           end.
Proof.
  unfold post_validate, validate_request.
  destruct xml as [| |b|n|text|elems|fields]; try by left.
  cbn [truthy]. case_bool_decide as Htext; cbn [negb]; [by left|].
  destruct (xml2js text) as [result|e] eqn:Hparse; cbn [mbind completion_bind];
    [|right; left; by exists e].
  unfold validate_parsed.
  destruct (js_get result "Invoice") as [invoice|e] eqn:HInvoice;
    cbn [mbind completion_bind]; [|right; left; by exists e].
  destruct (truthy invoice) eqn:Htruthy; cbn [negb]; [|by right; right; left].
  destruct (install_ItemList (normalize invoice)) as [cleanData|e] eqn:Hinstall;
    cbn [mbind completion_bind]; [|right; left; by exists e].
  unfold validate.
  destruct (validateSchema cleanData INVOICE_SCHEMA "root") as [errors|e] eqn:Hvalidate;
    cbn [mbind completion_bind]; [|right; left; by exists e].
  right; right; right. exists text, result, invoice, cleanData, errors.
  repeat (split; [done|]). by destruct errors.
Qed.

(** X11: the handler answers every request with status 200 or 400 and content
    type [application/xml]; every 400 body carries [<Valid>false</Valid>];
    and a 200 is sent only when the body was a non-empty string that parsed
    to a document with a truthy [Invoice] on which every step up to
    [validateSchema] returned. *)
Theorem post_validate_answers xml :
  (status (post_validate xml2js message xml) = 200
   ∨ status (post_validate xml2js message xml) = 400)
  ∧ contentType (post_validate xml2js message xml) = "application/xml"
  ∧ (status (post_validate xml2js message xml) = 400 →
     occurs_in "<Valid>false</Valid>" (body (post_validate xml2js message xml)))
  ∧ (status (post_validate xml2js message xml) = 200 →
     ∃ text result invoice cleanData errors,
       xml = VStr text ∧ text ≠ ""
       ∧ xml2js text = Return result
       ∧ js_get result "Invoice" = Return invoice ∧ truthy invoice = true
       ∧ install_ItemList (normalize invoice) = Return cleanData
       ∧ validateSchema cleanData INVOICE_SCHEMA "root" = Return errors
       ∧ body (post_validate xml2js message xml)
         = match errors with
           | [] => body_valid
           | _ :: _ => body_validation_failed errors
           end).
Proof.
  destruct (post_validate_shape xml)
    as [->|[[e ->]|[->|(text & result & invoice & cleanData & errors & -> & Htext
                         & Hparse & HInvoice & Htruthy & Hinstall & Hvalidate & ->)]]];
    cbn [status contentType body xml_response].
  - split; [by right|]. split; [done|]. split; [|done].
    intros _. apply occurs_in_body_empty_payload.
  - split; [by right|]. split; [done|]. split; [|done].
    intros _. apply occurs_in_body_invalid_format.
  - split; [by right|]. split; [done|]. split; [|done].
    intros _. apply occurs_in_body_wrong_root.
  - split; [by left|]. split; [done|]. split; [done|].
    intros _. by exists text, result, invoice, cleanData, errors.
Qed.

End Responses.

Section Totality.
Context `{host : JsHost}.
Variable xml2js : string → completion value.
Variable message : js_error → string.


Ltac prove_patterns_compile Hgstin :=
  lazymatch goal with
  | |- patterns_compile _ =>
      apply patterns_compile_node;
      [ intros ? Hpattern _;
        first [discriminate Hpattern | injection Hpattern as <-; exact Hgstin]
      | intros ? Hproperties;
        first [ discriminate Hproperties
              | injection Hproperties as <-;
                repeat (apply List.Forall_cons; [prove_patterns_compile Hgstin|]);
                apply List.Forall_nil ]
      | intros ? Hitems;
        first [ discriminate Hitems
              | injection Hitems as <-; prove_patterns_compile Hgstin ] ]
  end.

Lemma INVOICE_SCHEMA_patterns_compile :
  is_Some (RegExp_new "^[0-9]{2}[A-Z]{5}[0-9]{4}[A-Z]{1}[1-9A-Z]{1}Z[0-9A-Z]{1}$") →
  patterns_compile INVOICE_SCHEMA.
Proof. intros Hgstin. prove_patterns_compile Hgstin. Qed.

Lemma normalize_truthy v :
  truthy v = true → null_free v → normalize v ≠ VUndefined ∧ normalize v ≠ VNull.
Proof.
  intros Htruthy Hfree. pose proof (normalize_null_free v Hfree) as Hnormal.
  split; [|intros Heq; rewrite Heq in Hnormal; inversion Hnormal].
  destruct v as [| |b|n|s|elems|fields]; simpl in *; try done.
  by destruct (fields !! "_text") as [[]|].
Qed.

(** X12: once the body has parsed to a document without [null] that has a truthy
    [Invoice], the answer is a 200, whatever the schema check finds
    (provided the runtime accepts the GSTIN pattern of the schema). *)
Theorem parsed_invoice_answered_200 text result invoice :
  text ≠ "" →
  xml2js text = Return result → null_free result →
  js_get result "Invoice" = Return invoice → truthy invoice = true →
  is_Some (RegExp_new "^[0-9]{2}[A-Z]{5}[0-9]{4}[A-Z]{1}[1-9A-Z]{1}Z[0-9A-Z]{1}$") →
  status (post_validate xml2js message (VStr text)) = 200.
Proof.
  intros Htext Hparse Hfree HInvoice Htruthy Hgstin.
  assert (null_free invoice) as Hinvoice.
  { destruct result as [| |b|n|s|elems|fields]; simpl in HInvoice; try done;
      try (injection HInvoice as <-; constructor).
    injection HInvoice as <-.
    destruct (fields !! "Invoice") as [v|] eqn:Hv; simpl; [|constructor].
    inversion Hfree as [| | | | |? Hfields]; subst. by apply (Hfields "Invoice"). }
  destruct (normalize_truthy invoice Htruthy Hinvoice) as [Hundefined Hnull].
  destruct (install_ItemList_returns (normalize invoice) Hundefined Hnull)
    as (cleanData & Hinstall & Hclean).
  destruct (validateSchema_returns INVOICE_SCHEMA cleanData "root")
    as [errors Hvalidate].
  { by apply INVOICE_SCHEMA_patterns_compile. }
  { apply Hclean. by apply normalize_null_free. }
  unfold post_validate, validate_request. cbn [truthy].
  rewrite bool_decide_eq_false_2 by done. cbn [negb].
  rewrite Hparse. cbn [mbind completion_bind]. unfold validate_parsed.
  rewrite HInvoice. cbn [mbind completion_bind]. rewrite Htruthy. cbn [negb].
  rewrite Hinstall. cbn [mbind completion_bind]. unfold validate.
  rewrite Hvalidate. cbn [mbind completion_bind]. by destruct (bool_decide _).
Qed.

End Totality.

(** ** Instances *)

Lemma errors_in_traversal_order_witness :
  let sch := object_node (host := literal_host) ["SupTyp"; "RegRev"]
               [("SupTyp", enum_node ["B2B"; "SEZWP"]); ("RegRev", enum_node ["Y"; "N"])] in
  let fields : gmap string (value (host := literal_host)) :=
    {[ "SupTyp" := VStr "B2C" ]} in
  ∃ (missing : list string) (per_property : list (list string)),
    ["root.TranDtls: Missing required field 'RegRev'";
     "root.TranDtls.SupTyp: Value 'B2C' is not in allowed enum: B2B, SEZWP"]
    = map (λ name, "root.TranDtls" +:+ ": Missing required field '" +:+ name +:+ "'")
          missing
      ++ concat per_property
    ∧ missing `sublist_of` default [] (s_required sch)
    ∧ Forall2 (λ (entry : string * schema (host := literal_host)) part,
                 Forall (λ e, ∃ rest, e = ("root.TranDtls" +:+ "." +:+ entry.1) +:+ rest)
                        part)
              [("SupTyp", enum_node ["B2B"; "SEZWP"]); ("RegRev", enum_node ["Y"; "N"])]
              per_property
    ∧ (own_names (node_names sch) →
       missing = filter (λ name, fields !! name = None) (default [] (s_required sch))
       ∧ Forall2 (λ (entry : string * schema (host := literal_host)) part,
                    match fields !! entry.1 with
                    | Some v =>
                        if is_undefined v then part = []
                        else validateSchema v entry.2 ("root.TranDtls" +:+ "." +:+ entry.1)
                             = Return part
                    | None => part = []
                    end)
                 [("SupTyp", enum_node ["B2B"; "SEZWP"]); ("RegRev", enum_node ["Y"; "N"])]
                 per_property).
Proof.
  intros sch fields.
  apply (proj1 (errors_in_traversal_order (host := literal_host) sch "root.TranDtls")
           fields).
  - reflexivity.
  - reflexivity.
  - vm_compute. reflexivity.
Defined.


Lemma node_violations_reported_witness :
  "root.TranDtls: Missing required field 'RegRev'"
  ∈ ["root.TranDtls: Missing required field 'RegRev'"].
Proof.
  destruct (node_violations_reported (host := literal_host)
              (VObj {[ "SupTyp" := VStr "B2B" ]})
              (object_node ["SupTyp"; "RegRev"]
                 [("SupTyp", enum_node ["B2B"]); ("RegRev", enum_node ["Y"; "N"])])
              "root.TranDtls"
              ["root.TranDtls: Missing required field 'RegRev'"])
    as [Hmissing _].
  - reflexivity.
  - vm_compute. reflexivity.
  - apply (Hmissing {[ "SupTyp" := VStr "B2B" ]} ["SupTyp"; "RegRev"] "RegRev").
    + reflexivity.
    + by eexists.
    + reflexivity.
    + apply list_elem_of_further, list_elem_of_here.
    + apply (bool_decide_unpack _). vm_compute. exact I.
    + reflexivity.
Defined.

Lemma nested_errors_propagate_witness :
  ∃ part,
    validateSchema (host := literal_host) (VStr "B2C") (enum_node ["B2B"])
      ("root.TranDtls" +:+ "." +:+ "SupTyp") = Return part
    ∧ ∀ e, e ∈ part →
           e ∈ ["root.TranDtls.SupTyp: Value 'B2C' is not in allowed enum: B2B"].
Proof.
  destruct (nested_errors_propagate (host := literal_host)
              (VObj {[ "SupTyp" := VStr "B2C" ]})
              (object_node ["SupTyp"] [("SupTyp", enum_node ["B2B"])])
              "root.TranDtls"
              ["root.TranDtls.SupTyp: Value 'B2C' is not in allowed enum: B2B"])
    as [Hproperty _].
  - reflexivity.
  - vm_compute. reflexivity.
  - apply (Hproperty {[ "SupTyp" := VStr "B2C" ]} [("SupTyp", enum_node ["B2B"])]
             "SupTyp" (enum_node ["B2B"]) (VStr "B2C")).
    + reflexivity.
    + reflexivity.
    + apply list_elem_of_here.
    + reflexivity.
    + discriminate.
Defined.

Lemma normalize_text_free_witness :
  normalize (host := literal_host) (VObj {[ "Version" := VStr "1.1" ]})
  = VObj {[ "Version" := VStr "1.1" ]}.
Proof.
  apply (normalize_text_free (host := literal_host)).
  constructor; [reflexivity|].
  intros name v [_ <-]%lookup_singleton_Some. constructor.
Defined.

Lemma install_ItemList_settles_witness :
  let fields : gmap string (value (host := literal_host)) :=
    {[ "ItemList" := VObj {[ "Item" := VObj {[ "SlNo" := VStr "1" ]} ]} ]} in
  let d' := VObj (<["ItemList" := VArr [VObj {[ "SlNo" := VStr "1" ]}]]> fields) in
  install_ItemList d' = Return d'
  ∧ typeOf d' = typeOf (VObj fields)
  ∧ ∀ key, key ≠ "ItemList" → js_get d' key = js_get (VObj fields) key.
Proof.
  intros fields d'.
  apply (install_ItemList_settles (host := literal_host) (VObj fields) d').
  apply (install_ItemList_Item fields {[ "Item" := VObj {[ "SlNo" := VStr "1" ]} ]}
           (VObj {[ "SlNo" := VStr "1" ]})).
  - apply lookup_singleton_eq.
  - apply lookup_singleton_eq.
  - reflexivity.
Defined.

Ltac prove_text_free :=
  lazymatch goal with
  | |- text_free (VObj _) =>
      apply text_free_obj;
      [ vm_compute; reflexivity
      | let H := fresh "Hmember" in
        intros ? ? H;
        repeat (apply lookup_insert_Some in H as [[_ <-]|[_ H]]; [prove_text_free|]);
        apply lookup_singleton_Some in H as [_ <-]; prove_text_free ]
  | |- text_free (VArr _) =>
      let H := fresh "Helement" in
      apply text_free_arr; intros [|[|?]] ? H; simpl in H;
      [injection H as <-; prove_text_free | discriminate H | discriminate H]
  | |- text_free _ => constructor
  end.

Lemma valid_invoice_text_free : text_free (VObj valid_invoice).
Proof. unfold valid_invoice, valid_item. prove_text_free. Qed.

Lemma text_free_wrapped `{host : JsHost} (fields : gmap string value) elems :
  text_free (VObj fields) → fields !! "ItemList" = Some (VArr elems) →
  text_free
    (VObj (<["ItemList" := VObj {[ "Item" := default VUndefined (fields !! "ItemList") ]}]>
             fields)).
Proof.
  intros Hfree HItemList. inversion Hfree as [| | | | | |? Htext Hfields]; subst.
  constructor.
  - by rewrite lookup_insert_ne.
  - intros name x. rewrite lookup_insert. case_decide; [|apply Hfields].
    intros [= <-]. constructor; [done|].
    intros name' y [_ <-]%lookup_singleton_Some. rewrite HItemList. simpl.
    by apply (Hfields "ItemList").
Qed.

Lemma schema_valid_xml_answered_200_witness :
  post_validate valid_xml2js sample_message (VStr sample_xml)
  = xml_response 200 body_valid
  ∧ occurs_in "<Valid>true</Valid>"
      (body (post_validate valid_xml2js sample_message (VStr sample_xml))).
Proof.
  apply (schema_valid_xml_answered_200 (host := literal_host)
           valid_xml2js sample_message sample_xml (xmlStructure valid_invoice)
           (VObj (<["ItemList" :=
                     VObj {[ "Item" := default VUndefined (valid_invoice !! "ItemList") ]}]>
                    valid_invoice))
           (VObj valid_invoice)).
  - discriminate.
  - reflexivity.
  - unfold xmlStructure, js_get. by rewrite lookup_singleton_eq.
  - reflexivity.
  - rewrite normalize_fixes.
    + by apply (install_ItemList_xmlStructure valid_invoice [valid_item]).
    + by apply (text_free_wrapped valid_invoice [valid_item]);
        [apply valid_invoice_text_free|].
  - vm_compute. reflexivity.
Defined.

Lemma sample_parsed_null_free : null_free sample_parsed.
Proof.
  constructor. intros name1 v1 [_ <-]%lookup_singleton_Some.
  constructor. intros name2 v2 [_ <-]%lookup_singleton_Some.
  constructor. intros name3 v3 [_ <-]%lookup_singleton_Some.
  constructor. intros name4 v4 [_ <-]%lookup_singleton_Some.
  constructor.
Qed.

Lemma parsed_invoice_answered_200_witness :
  status (post_validate sample_xml2js sample_message (VStr sample_xml)) = 200.
Proof.
  apply (parsed_invoice_answered_200 (host := literal_host)
           sample_xml2js sample_message sample_xml sample_parsed
           (VObj {[ "TranDtls" := VObj {[ "SupTyp" := VObj {[ "_text" := VStr "B2B" ]} ]} ]})).
  - discriminate.
  - reflexivity.
  - apply sample_parsed_null_free.
  - reflexivity.
  - reflexivity.
  - by eexists.
Defined.

(** ** More on [normalize] and on number nodes *)

Section Leaves.
Context `{host : JsHost}.
Implicit Types (data v : value) (sch : schema) (path : string)
  (fields : gmap string value).

Lemma normalize_text_leaves v : text_leaves v → text_free (normalize v).
Proof.
  revert v. fix IH 2.
  intros v [| |b|n|s|elems Helems|fields text Htext Hdefined Hfree|fields Htext Hfields].
  1-5: constructor.
  - simpl. constructor. intros i x.
    change (map normalize elems) with (normalize <$> elems). rewrite list_lookup_fmap.
    destruct (elems !! i) as [y|] eqn:Hy; [|done]. simpl. intros [= <-].
    apply IH. by apply (Helems i).
  - simpl. rewrite Htext. by destruct text.
  - assert (text_free (VObj (normalize <$> fields))) as Hmapped.
    { constructor.
      - rewrite lookup_fmap. by destruct (fields !! "_text") as [[]|].
      - intros name x. rewrite lookup_fmap.
        destruct (fields !! name) as [y|] eqn:Hy; [|done]. simpl. intros [= <-].
        apply IH. by apply (Hfields name). }
    simpl. by destruct (fields !! "_text") as [[]|].
Qed.

(** X7: on a value as the parser hands it over, [normalize] leaves no [_text]
    member behind, and a second pass changes nothing. *)
Theorem normalize_removes_text v :
  text_leaves v →
  text_free (normalize v) ∧ normalize (normalize v) = normalize v.
Proof.
  intros Hleaves. pose proof (normalize_text_leaves v Hleaves) as Hfree.
  split; [done|]. by apply normalize_fixes.
Qed.

(** X5: a node of type [number] without enum and pattern accepts exactly the
    numbers and the numeric-looking strings. *)
Theorem number_node_accepts sch data path :
  s_type sch = Some "number" → s_enum sch = None → s_pattern sch = None →
  validateSchema data sch path = Return []
  ↔ typeOf data = "number" ∨ numeric_string data = true.
Proof.
  intros Htype Henum Hpattern.
  destruct (type_mismatch (s_type sch) data) eqn:Hmismatch.
  - rewrite validateSchema_mismatch by done. split; [done|].
    intros Haccepted. exfalso. revert Hmismatch. rewrite Htype.
    unfold type_mismatch, lenient, type_differs, type_is, str_truthy.
    destruct Haccepted as [Hnumber|Hnumeric].
    + destruct data; simpl in Hnumber; try done.
    + destruct data; simpl in Hnumeric; try done. simpl. by rewrite Hnumeric.
  - assert (typeOf data = "number" ∨ numeric_string data = true) as Haccepted.
    { apply type_mismatch_spec in Hmismatch.
      destruct (Hmismatch "number" Htype) as [|[_ ?]]; [done|by left|by right]. }
    split; [done|]. intros _.
    rewrite validateSchema_primitive, Henum, Hpattern; [done..|].
    destruct Haccepted as [Hnumber|Hnumeric]; destruct data; try done; by split.
Qed.

End Leaves.

Lemma normalize_removes_text_witness :
  text_free (normalize sample_parsed)
  ∧ normalize (normalize sample_parsed) = normalize sample_parsed.
Proof.
  apply (normalize_removes_text (host := literal_host) sample_parsed).
  apply text_leaves_obj; [reflexivity|].
  intros name1 v1 [_ <-]%lookup_singleton_Some.
  apply text_leaves_obj; [reflexivity|].
  intros name2 v2 [_ <-]%lookup_singleton_Some.
  apply text_leaves_obj; [reflexivity|].
  intros name3 v3 [_ <-]%lookup_singleton_Some.
  apply (text_leaves_text _ (VStr "B2B")); [reflexivity|discriminate|constructor].
Defined.

Lemma number_node_accepts_witness :
  validateSchema (host := literal_host) (VStr "1120") number_node "root.ValDtls.TotInvVal"
  = Return []
  ↔ typeOf (host := literal_host) (VStr "1120") = "number"
    ∨ numeric_string (host := literal_host) (VStr "1120") = true.
Proof.
  apply (number_node_accepts (host := literal_host)
           number_node (VStr "1120") "root.ValDtls.TotInvVal"); reflexivity.
Defined.
